(** * FileOps: the Explorer file-operation launcher

    A shallow embedding of [src/fileops.cpp] (the native launcher) and of
    [validateInput] from [src/main.ts] (the scripting wrapper), with the
    properties of the launcher stated and proved over it.

    Conventions.
    - [std::string] is [string]; a [char] is an [ascii].
    - [int], [DWORD], [UINT] and [wchar_t] are [Z]; where the source converts
      an [int] to an unsigned 32-bit value the wrap-around is written out.
    - A [LPWSTR] buffer obtained from [new wchar_t[n]] is the [list] of its
      [n] code units, terminator included.
    - [std::cout], the message boxes shown and the calls made to the shell
      are the three components of the [World] threaded through the code. *)

From Stdlib Require Import ZArith String List Ascii HexString Bool Lia.
From stdpp Require Import gmap strings.
Import ListNotations.

Set Default Proof Using "Type".

(** ** Machine types and Win32 constants *)

Definition int := Z.
Definition DWORD := Z.
Definition UINT := Z.
Definition wchar_t := Z.

(** [(DWORD)x] for an [int] x. *)
Definition to_DWORD (x : int) : DWORD := (x mod 2 ^ 32)%Z.

Module Win32.
(** winerror.h *)
Definition ERROR_CANCELLED : int := 1223%Z.

(** shellapi.h *)
Definition FO_MOVE : UINT := 0x1%Z.
Definition FO_COPY : UINT := 0x2%Z.
Definition FO_DELETE : UINT := 0x3%Z.

Definition FOF_MULTIDESTFILES : Z := 0x1%Z.
Definition FOF_ALLOWUNDO : Z := 0x40%Z.
Definition FOF_NOCONFIRMMKDIR : Z := 0x200%Z.
Definition FOF_WANTNUKEWARNING : Z := 0x4000%Z.

(** winuser.h *)
Definition MB_ICONWARNING : UINT := 0x30%Z.
End Win32.
Import Win32.

(** The parameter block handed to [SHFileOperationW].  Only the members the
    launcher assigns are kept.  [wFunc] is [None] while it still holds the
    indeterminate value of the uninitialised local. *)
Record SHFILEOPSTRUCTW := mkOp {
  wFunc : option UINT;
  pFrom : list wchar_t;
  pTo : list wchar_t;
  fFlags : Z
}.

(** One call [MessageBox(0, lpText, lpCaption, uType)]. *)
Record MessageBoxCall := mkBox {
  lpText : list wchar_t;
  lpCaption : list wchar_t;
  uType : UINT
}.

(** ** The world and its monad *)

Record World := mkWorld {
  stdout : string;
  dialogs : list MessageBoxCall;
  shellCalls : list SHFILEOPSTRUCTW
}.

Definition world0 : World := mkWorld "" [] [].

Definition IO (A : Type) : Type := World -> A * World.

Definition ret {A} (a : A) : IO A := fun w => (a, w).

Definition bind {A B} (c : IO A) (k : A -> IO B) : IO B :=
  fun w => let (a, w') := c w in k a w'.

Notation "x <- c ;; k" := (bind c (fun x => k))
  (at level 100, c at next level, right associativity).
Notation "c ;; k" := (bind c (fun _ => k))
  (at level 100, right associativity).

(** [std::cout << s] *)
Definition cout (s : string) : IO unit :=
  fun w => (tt, mkWorld (stdout w +:+ s) (dialogs w) (shellCalls w)).

(** [MessageBox(0, text, caption, type)] *)
Definition MessageBox (text caption : list wchar_t) (type : UINT) : IO unit :=
  fun w => (tt, mkWorld (stdout w) (dialogs w ++ [mkBox text caption type])
                        (shellCalls w)).

Definition endl : string := String "010" "".
Definition TAB : ascii := "009"%char.
Definition NUL : ascii := "000"%char.

(** ** printUsage *)

(** What [printUsage] writes. *)
Definition usageText : string :=
  endl +:+ "usage: (action is one of: copy, move, delete)" +:+ endl +:+
  "  FileOps.exe <action> --from <sourcePath> [sourcePath]* --to <directoryPath>"
    +:+ endl +:+
  "  FileOps.exe <action> --from <sourcePath> [sourcePath]* --to <destPath> [destPath]*"
    +:+ endl.

Definition printUsage : IO unit :=
  cout endl ;;
  cout "usage: (action is one of: copy, move, delete)" ;; cout endl ;;
  cout "  FileOps.exe <action> --from <sourcePath> [sourcePath]* --to <directoryPath>" ;;
  cout endl ;;
  cout "  FileOps.exe <action> --from <sourcePath> [sourcePath]* --to <destPath> [destPath]*" ;;
  cout endl.

(** ** inputIsValid *)

(** Print one error line, then the usage, and [return false]. *)
Definition reject (msg : string) : IO bool :=
  cout msg ;; cout endl ;; printUsage ;; ret false.

(** The checks in the order of the source, each one returning early.  The
    [if (action == "delete") ... else ...] of the source is written as its two
    guarded rejections. *)
Definition inputIsValid (action : string) (srcPaths destPaths : list string)
  : IO bool :=
  if (action =? "")%string then
    reject "error: action is required"
  else if negb (action =? "copy")%string && negb (action =? "move")%string
          && negb (action =? "delete")%string then
    reject "error: action must be one of: copy, move, delete"
  else if (length srcPaths =? 0)%nat then
    reject "at least one source path is required"
  else if (action =? "delete")%string && (0 <? length destPaths)%nat then
    reject "error: cannot specify destination path when action is delete"
  else if negb (action =? "delete")%string && (length destPaths =? 0)%nat then
    reject "error: at least one destination path is required when action is not delete"
  else if (length srcPaths <? length destPaths)%nat then
    reject "error: number of destination paths cannot be more than number of source paths"
  else if (1 <? length srcPaths)%nat && (1 <? length destPaths)%nat
          && negb (length srcPaths =? length destPaths)%nat then
    reject "error: number of source and destination paths must match when more than one destination path is specified"
  else
    ret true.

(** ** The five rules

    The rules of the validator as the specification lists them. *)

Definition fiveRules (action : string) (srcPaths destPaths : list string)
  : Prop :=
  (action <> ""%string /\
   (action = "copy"%string \/ action = "move"%string \/ action = "delete"%string)) /\
  1 <= length srcPaths /\
  (if decide (action = "delete"%string) then length destPaths = 0
   else 1 <= length destPaths) /\
  length destPaths <= length srcPaths /\
  (1 < length srcPaths -> 1 < length destPaths ->
   length srcPaths = length destPaths).

(** ** The host

    Three services of the operating system are called by the launcher and are
    not part of it: the UTF-8 to UTF-16 conversion behind
    [MultiByteToWideChar], the system message formatter and the shell file
    operation.  The conversion comes with the three facts about it that the
    launcher relies on; the other two are arbitrary. *)

(** The code unit of a [char] widened to a [wchar_t]. *)
Definition widen (c : ascii) : wchar_t := Z.of_N (N_of_ascii c).

(** A [char] below 0x80. *)
Definition isAscii7 (c : ascii) : Prop := (widen c < 0x80)%Z.

Class Host := {
  (** the UTF-16 code units of a UTF-8 text that holds no terminator *)
  utf8ToWide : string -> list wchar_t;
  (** nothing converts to nothing *)
  utf8_empty : utf8ToWide "" = [];
  (** a 7-bit character converts to itself and cuts the text in two *)
  utf8_ascii7 : forall (a : string) (c : ascii) (b : string),
    isAscii7 c ->
    utf8ToWide (a +:+ String c b) = utf8ToWide a ++ widen c :: utf8ToWide b;
  (** a 7-bit code unit of the result stands for that character of the text *)
  utf8_ascii7_only : forall (s : string) (c : ascii),
    isAscii7 c ->
    In (widen c) (utf8ToWide s) -> In c (list_ascii_of_string s);
  (** [FormatMessageA(ALLOCATE_BUFFER | FROM_SYSTEM | IGNORE_INSERTS, NULL,
      code, ..., &messageBuffer, 0, NULL)].  [Some s]: the message [s] was
      stored in a fresh buffer and its length returned.  [None]: the call
      failed, returned 0 and left [messageBuffer] at NULL. *)
  FormatMessageA : DWORD -> option string;
  (** what [SHFileOperationW(&op)] returns for a parameter block, with the
      [fAnyOperationsAborted] member it leaves in the block *)
  shellResult : SHFILEOPSTRUCTW -> int * bool
}.

(** ** Path-list decoding, as the specification words it

    The buffer is read as a run of NUL-terminated entries, and the trailing
    empty entry, the one the final terminator closes, is discarded. *)

Fixpoint nulTerminated (buf : list wchar_t) : list (list wchar_t) :=
  match buf with
  | [] => []
  | w :: rest =>
      if (w =? 0)%Z then [] :: nulTerminated rest
      else match nulTerminated rest with
           | e :: es => (w :: e) :: es
           | [] => []
           end
  end.

Definition dropTrailingEmpty (es : list (list wchar_t)) : list (list wchar_t) :=
  match rev es with
  | [] :: front => rev front
  | _ => es
  end.

Definition decodePathList (buf : list wchar_t) : list (list wchar_t) :=
  dropTrailingEmpty (nulTerminated buf).

(** An ASCII text as wide characters. *)
Definition L (s : string) : list wchar_t := map widen (list_ascii_of_string s).

Section Launcher.

Context {host : Host}.

(** *** stringToLpwstr *)

(** The characters a reader of [str.c_str()] sees before the terminator. *)
Fixpoint c_str (str : string) : string :=
  match str with
  | "" => ""
  | String c rest => if Ascii.eqb c NUL then "" else String c (c_str rest)
  end.

(** [MultiByteToWideChar(CP_UTF8, 0, lpMultiByteStr, -1, ...)]: the
    conversion of the text up to its terminator, terminator included. *)
Definition MultiByteToWideChar (lpMultiByteStr : string) : list wchar_t :=
  utf8ToWide (c_str lpMultiByteStr) ++ [0%Z].

Definition stringToLpwstr (str : string) : list wchar_t :=
  let bufferLength := length (MultiByteToWideChar str) in
  firstn bufferLength (MultiByteToWideChar str).

(** *** getErrorAsString *)

(** The map [errors] after the assignments [errors[code] = text], in the
    order of the source.  The text of 0x402 has a no-break space, the bytes
    C2 A0 of the source file, between "Windows" and "Vista". *)
Definition errors : gmap DWORD string :=
  fold_left (fun (m : gmap DWORD string) (kv : DWORD * string) =>
               <[kv.1 := kv.2]> m)
    [ (0x71%Z, "The source and destination files are the same file.");
      (0x72%Z, "Multiple file paths were specified in the source buffer, but only one destination file path.");
      (0x73%Z, "Rename operation was specified but the destination path is a different directory. Use the move operation instead.");
      (0x74%Z, "The source is a root directory, which cannot be moved or renamed.");
      (0x75%Z, "The operation was canceled by the user, or silently canceled if the appropriate flags were supplied to SHFileOperation.");
      (0x76%Z, "The destination is a subtree of the source.");
      (0x78%Z, "Security settings denied access to the source.");
      (0x79%Z, "The source or destination path exceeded or would exceed MAX_PATH.");
      (0x7A%Z, "The operation involved multiple destination paths, which can fail in the case of a move operation.");
      (0x7C%Z, "The path in the source or destination or both was invalid.");
      (0x7D%Z, "The source and destination have the same parent folder.");
      (0x7E%Z, "The destination path is an existing file.");
      (0x80%Z, "The destination path is an existing folder.");
      (0x81%Z, "The name of the file exceeds MAX_PATH.");
      (0x82%Z, "The destination is a read-only CD-ROM, possibly unformatted.");
      (0x83%Z, "The destination is a read-only DVD, possibly unformatted.");
      (0x84%Z, "The destination is a writable CD-ROM, possibly unformatted.");
      (0x85%Z, "The file involved in the operation is too large for the destination media or file system.");
      (0x86%Z, "The source is a read-only CD-ROM, possibly unformatted.");
      (0x87%Z, "The source is a read-only DVD, possibly unformatted.");
      (0x88%Z, "The source is a writable CD-ROM, possibly unformatted.");
      (0xB7%Z, "MAX_PATH was exceeded during the operation.");
      (0x402%Z, "An unknown error occurred. This is typically due to an invalid path in the source or destination. This error does not occur on Windows Vista and later.");
      (0x10000%Z, "An unspecified error occurred on the destination.");
      (0x10074%Z, "Destination is a root directory and cannot be renamed.") ]
    ∅.

Definition getErrorAsString (errorCode : DWORD) : string :=
  match errors !! errorCode with
  | Some message => message
  | None =>
      match FormatMessageA errorCode with
      | Some message => message
      | None => ""
      end
  end.

(** *** handleStatus *)

(** [sstream << std::hex << x] for an [int]: the digits of its unsigned
    32-bit value, lower case, no leading zero. *)
Definition hex (x : int) : string :=
  match to_DWORD x with
  | Zpos p => HexString.Raw.of_pos p ""
  | _ => "0"
  end.

Definition handleStatus (opReturnCode : int) (wasAborted : bool)
    (action : string) (showErrorDialog : bool) : IO unit :=
  if wasAborted || (opReturnCode =? ERROR_CANCELLED)%Z then
    cout "cancelled" ;; cout endl
  else if (opReturnCode =? 0)%Z then
    cout "ok" ;; cout endl
  else
    let errorHex := "0x" +:+ hex opReturnCode in
    let errorMessage := getErrorAsString (to_DWORD opReturnCode) in
    (if showErrorDialog then
       let caption := "Unable to " +:+ action +:+ " files (ERR " +:+ errorHex +:+ ")" in
       let lpCaption := stringToLpwstr caption in
       let lpText := stringToLpwstr errorMessage in
       if (action =? "copy")%string then
         MessageBox lpText lpCaption MB_ICONWARNING
       else if (action =? "move")%string then
         MessageBox lpText lpCaption MB_ICONWARNING
       else if (action =? "delete")%string then
         MessageBox lpText lpCaption MB_ICONWARNING
       else ret tt
     else ret tt) ;;
    cout "error " ;; cout errorHex ;; cout ": " ;; cout errorMessage ;;
    cout endl.

(** The dialog of a failed operation. *)
Definition errorBox (opReturnCode : int) (action : string) : MessageBoxCall :=
  mkBox (stringToLpwstr (getErrorAsString (to_DWORD opReturnCode)))
        (stringToLpwstr ("Unable to " +:+ action +:+ " files (ERR 0x"
                         +:+ hex opReturnCode +:+ ")"))
        MB_ICONWARNING.

(** *** combileFileNames *)

(** [wcslen]: the number of code units before the first terminator. *)
Fixpoint wcslen (s : list wchar_t) : nat :=
  match s with
  | [] => 0
  | w :: rest => if (w =? 0)%Z then 0 else S (wcslen rest)
  end.

(** The body of the second loop at index [i]. *)
Definition tabToNul (combined : list wchar_t) (i : nat) : list wchar_t :=
  match combined !! i with
  | Some w => if (w =? widen TAB)%Z then <[i := 0%Z]> combined else combined
  | None => combined
  end.

Definition combileFileNames (files : list string) : list wchar_t :=
  let combinedStr :=
    fold_left (fun acc file => acc +:+ (file +:+ String TAB "")) files ""%string in
  let combined := stringToLpwstr combinedStr in
  let length := wcslen combined in
  fold_left tabToNul (seq 0 length) combined.

(** *** performFileOperation *)

(** [SHFileOperationW(&op)]: the call is recorded and answered. *)
Definition SHFileOperationW (op : SHFILEOPSTRUCTW) : IO (int * bool) :=
  fun w => (shellResult op, mkWorld (stdout w) (dialogs w) (shellCalls w ++ [op])).

Definition performFileOperation (action : string)
    (srcPaths destPaths : list string) (showErrorDialog : bool) : IO int :=
  let fFlags :=
    Z.lor (Z.lor FOF_ALLOWUNDO FOF_NOCONFIRMMKDIR) FOF_WANTNUKEWARNING in
  let fFlags :=
    if (1 <? length destPaths)%nat then Z.lor fFlags FOF_MULTIDESTFILES
    else fFlags in
  let pFrom := combileFileNames srcPaths in
  let pTo := combileFileNames destPaths in
  let wFunc :=
    if (action =? "copy")%string then Some FO_COPY
    else if (action =? "move")%string then Some FO_MOVE
    else if (action =? "delete")%string then Some FO_DELETE
    else None in
  let op := mkOp wFunc pFrom pTo fFlags in
  r <- SHFileOperationW op ;;
  handleStatus r.1 r.2 action showErrorDialog ;;
  ret r.1.

(** *** main *)

Record Locals := mkLocals {
  showErrorDialog : bool;
  action : string;
  srcPaths : list string;
  destPaths : list string;
  currentlyProcessing : string
}.

(** The body of the argument loop for [arg = argv[i]]. *)
Definition parseArg (st : Locals) (arg : string) : Locals :=
  let '(mkLocals show act src dst cur) := st in
  if (arg =? "--from")%string then mkLocals show act src dst "from"
  else if (arg =? "--to")%string then mkLocals show act src dst "to"
  else if (arg =? "--show-errors")%string then mkLocals true act src dst cur
  else if String.prefix "--" arg then st
  else if (cur =? "action")%string then mkLocals show arg src dst cur
  else if (cur =? "from")%string then mkLocals show act (src ++ [arg]) dst cur
  else if (cur =? "to")%string then mkLocals show act src (dst ++ [arg]) cur
  else st.

(** The locals after the loop [for (int i = 1; i < argc; i++)]. *)
Definition parseArgs (argv : list string) : Locals :=
  fold_left parseArg (tail argv) (mkLocals false "" [] [] "action").

Definition main (argv : list string) : IO int :=
  let st := parseArgs argv in
  valid <- inputIsValid (action st) (srcPaths st) (destPaths st) ;;
  if negb valid then ret 1%Z
  else performFileOperation (action st) (srcPaths st) (destPaths st)
                            (showErrorDialog st).

End Launcher.

(** ** The scripting wrapper: [validateInput] of main.ts *)

Module Wrapper.

(** A JavaScript string: its UTF-16 code units. *)
Definition jsstring := list Z.

(** ['copy' | 'move' | 'delete'] *)
Inductive Action := copy | move | delete.

(** The name the wrapper puts on the launcher's command line. *)
Definition actionName (a : Action) : string :=
  match a with
  | copy => "copy"
  | move => "move"
  | delete => "delete"
  end.

(** [string | string[]], or a nullish value at run time. *)
Inductive Paths :=
| Nullish
| Str (s : jsstring)
| Arr (l : list jsstring).

(** WhiteSpace and LineTerminator of ECMAScript, as [trim] strips them. *)
Definition isWhiteSpace (u : Z) : bool :=
  ((u =? 0x9) || (u =? 0xA) || (u =? 0xB) || (u =? 0xC) || (u =? 0xD)
   || (u =? 0x20) || (u =? 0xA0) || (u =? 0x1680)
   || ((0x2000 <=? u) && (u <=? 0x200A))
   || (u =? 0x2028) || (u =? 0x2029) || (u =? 0x202F) || (u =? 0x205F)
   || (u =? 0x3000) || (u =? 0xFEFF))%Z.

Fixpoint trimStart (s : jsstring) : jsstring :=
  match s with
  | u :: rest => if isWhiteSpace u then trimStart rest else s
  | [] => []
  end.

Definition trim (s : jsstring) : jsstring :=
  rev (trimStart (rev (trimStart s))).

(** [x ?? ''] *)
Definition orEmpty (x : Paths) : Paths :=
  match x with
  | Nullish => Str []
  | _ => x
  end.

(** [if (typeof x === 'string') x = x.trim()] *)
Definition trimIfString (x : Paths) : Paths :=
  match x with
  | Str s => Str (trim s)
  | _ => x
  end.

(** [([] as string[]).concat(x.length > 0 ? x : [])] *)
Definition toPaths (x : Paths) : list jsstring :=
  match x with
  | Str s => if (0 <? length s)%nat then [s] else []
  | Arr l => if (0 <? length l)%nat then l else []
  | Nullish => []
  end.

(** [inl msg] is [throw new Error(msg)]; [inr] is the returned object. *)
Definition validateInput (action : Action) (src dest : Paths)
  : string + (list jsstring * list jsstring) :=
  let src := trimIfString (orEmpty src) in
  let dest := trimIfString (orEmpty dest) in
  let srcPaths := toPaths src in
  let destPaths := toPaths dest in
  if (length srcPaths =? 0)%nat then
    inl "at least one source path is required"%string
  else if match action with delete => false | _ => true end
          && (length destPaths =? 0)%nat then
    inl "at least one destination path is required when copying or moving"%string
  else if (length srcPaths <? length destPaths)%nat then
    inl "number of destination paths cannot be more than number of source paths"%string
  else if (1 <? length srcPaths)%nat && (1 <? length destPaths)%nat
          && negb (length srcPaths =? length destPaths)%nat then
    inl "number of source and destination paths must match when more than one destination path is specified"%string
  else
    inr (srcPaths, destPaths).

(** [validateInput] returned. *)
Definition returns (r : string + (list jsstring * list jsstring)) : Prop :=
  exists v, r = inr v.

End Wrapper.

(** ** A UTF-8 decoder

    A decoder of well-formed UTF-8 (Unicode 3.9, table 3-7) into UTF-16.
    A byte that starts no well-formed sequence becomes U+FFFD and decoding
    resumes at the next byte. *)

Module Utf8.

Definition REPLACEMENT : wchar_t := 0xFFFD%Z.

(** A continuation byte, 10xxxxxx. *)
Definition isCont (b : Z) : bool := ((0x80 <=? b) && (b <=? 0xBF))%Z.

(** The payload of a continuation byte. *)
Definition low6 (b : Z) : Z := (b - 0x80)%Z.

Definition isSurrogate (u : Z) : bool := ((0xD800 <=? u) && (u <=? 0xDFFF))%Z.

Fixpoint decode (s : string) : list wchar_t :=
  match s with
  | "" => []
  | String c0 r =>
      let b0 := widen c0 in
      let bad := REPLACEMENT :: decode r in
      if (b0 <? 0x80)%Z then b0 :: decode r
      else if ((0xC0 <=? b0) && (b0 <? 0xE0))%Z then
        match r with
        | String c1 r1 =>
            let u := ((b0 - 0xC0) * 64 + low6 (widen c1))%Z in
            if isCont (widen c1) && (0x80 <=? u)%Z
            then u :: decode r1 else bad
        | _ => bad
        end
      else if ((0xE0 <=? b0) && (b0 <? 0xF0))%Z then
        match r with
        | String c1 (String c2 r2) =>
            let u := (((b0 - 0xE0) * 64 + low6 (widen c1)) * 64
                      + low6 (widen c2))%Z in
            if isCont (widen c1) && isCont (widen c2)
               && (0x800 <=? u)%Z && negb (isSurrogate u)
            then u :: decode r2 else bad
        | _ => bad
        end
      else if ((0xF0 <=? b0) && (b0 <? 0xF8))%Z then
        match r with
        | String c1 (String c2 (String c3 r3)) =>
            let u := ((((b0 - 0xF0) * 64 + low6 (widen c1)) * 64
                       + low6 (widen c2)) * 64 + low6 (widen c3))%Z in
            if isCont (widen c1) && isCont (widen c2) && isCont (widen c3)
               && (0x10000 <=? u)%Z && (u <=? 0x10FFFF)%Z
            then (0xD800 + (u - 0x10000) / 0x400)%Z
                 :: (0xDC00 + (u - 0x10000) mod 0x400)%Z :: decode r3
            else bad
        | _ => bad
        end
      else bad
  end.

End Utf8.

(** ** Notions used in the statements *)

(** The number of line ends, the character [std::endl] writes, in a text. *)
Fixpoint lineEnds (s : string) : nat :=
  match s with
  | "" => 0
  | String c rest => (if Ascii.eqb c "010" then 1 else 0) + lineEnds rest
  end.

(** The messages [inputIsValid] rejects with. *)
Definition rejections : list string :=
  [ "error: action is required";
    "error: action must be one of: copy, move, delete";
    "at least one source path is required";
    "error: cannot specify destination path when action is delete";
    "error: at least one destination path is required when action is not delete";
    "error: number of destination paths cannot be more than number of source paths";
    "error: number of source and destination paths must match when more than one destination path is specified"
  ]%string.

(** The outcome is a failure: neither success nor cancellation. *)
Definition failed (opReturnCode : int) (wasAborted : bool) : Prop :=
  wasAborted = false /\ opReturnCode <> 0%Z /\ opReturnCode <> ERROR_CANCELLED.

(** A flag is set in a flag word. *)
Definition flagSet (flags flag : Z) : Prop := Z.land flags flag = flag.

(** The character [c] occurs in the text [s]. *)
Definition occurs (c : ascii) (s : string) : Prop :=
  In c (list_ascii_of_string s).

(** No path holds a tab or a terminator. *)
Definition plainPaths (files : list string) : Prop :=
  Forall (fun file => ~ occurs TAB file /\ ~ occurs NUL file) files.

(** [e] followed by the separator [sep], for each entry [e]. *)
Definition joined (sep : wchar_t) (es : list (list wchar_t)) : list wchar_t :=
  concat (map (fun e => e ++ [sep]) es).

(** The effect of the second loop of [combileFileNames] on one code unit. *)
Definition untab (w : wchar_t) : wchar_t :=
  if (w =? widen TAB)%Z then 0%Z else w.

(** ** The scripting wrapper: [copy], [move] and [del] of main.ts *)

Module WrapperApi.

(** The property [showDialogOnError] of an options object: absent, or
    present with the value [undefined] or a boolean. *)
Inductive Property := Missing | Undefined | Bool (b : bool).

(** [FileOpOptions] *)
Record FileOpOptions := mkOptions { showDialogOnError : Property }.

(** What a call has done when its promise settles: the commands handed to
    [commandsAsScript], and the outcome, [inl] for a rejection with an error
    and [inr] for the exit code, a number or [null]. *)
Record Settled := mkSettled {
  outcome : string + option Z;
  commands : list Wrapper.jsstring
}.

(** [ '`"' + p + '`"' ] *)
Definition quoted (p : Wrapper.jsstring) : Wrapper.jsstring :=
  [0x60; 0x22]%Z ++ p ++ [0x60; 0x22]%Z.

(** [xs.join(' ')] *)
Fixpoint joinSpace (xs : list Wrapper.jsstring) : Wrapper.jsstring :=
  match xs with
  | [] => []
  | [x] => x
  | x :: rest => x ++ [0x20%Z] ++ joinSpace rest
  end.

(** The value of [showDialogOnError] after
    [Object.assign({ showDialogOnError: true }, options)], as a condition.
    An omitted [options] is [{}]. *)
Definition showDialog (options : option FileOpOptions) : bool :=
  match options with
  | None => true
  | Some o =>
      match showDialogOnError o with
      | Missing => true
      | Undefined => false
      | Bool b => b
      end
  end.

Section Api.

(** [path.join(__dirname, '..', 'bin', 'FileOps.exe')] *)
Variable exe : Wrapper.jsstring.

(** [commandsAsScript] of the PowerShell package: it rejects with an error
    or resolves with an output whose [exitCode] is a number or [null]. *)
Variable commandsAsScript : Wrapper.jsstring -> string + option Z.

(** [await commandsAsScript(`Start-Process -WindowStyle Hidden -FilePath
    "${exe}" -ArgumentList "${args}"`)], then [return output.exitCode]. *)
Definition startProcess (args : Wrapper.jsstring) : Settled :=
  let command :=
    L "Start-Process -WindowStyle Hidden -FilePath " ++ [0x22%Z] ++ exe
      ++ [0x22%Z] ++ L " -ArgumentList " ++ [0x22%Z] ++ args ++ [0x22%Z] in
  mkSettled (commandsAsScript command) [command].

Definition copy (src dest : Wrapper.Paths) (options : option FileOpOptions)
  : Settled :=
  match Wrapper.validateInput Wrapper.copy src dest with
  | inl error => mkSettled (inl error) []
  | inr (srcPaths, destPaths) =>
      let from := joinSpace (map quoted srcPaths) in
      let to := joinSpace (map quoted destPaths) in
      let args :=
        L "copy " ++ (if showDialog options then L "--show-errors" else [])
          ++ L " --from " ++ from ++ L " --to " ++ to in
      startProcess args
  end.

Definition move (src dest : Wrapper.Paths) (options : option FileOpOptions)
  : Settled :=
  match Wrapper.validateInput Wrapper.move src dest with
  | inl error => mkSettled (inl error) []
  | inr (srcPaths, destPaths) =>
      let from := joinSpace (map quoted srcPaths) in
      let to := joinSpace (map quoted destPaths) in
      let args :=
        L "move " ++ (if showDialog options then L "--show-errors" else [])
          ++ L " --from " ++ from ++ L " --to " ++ to in
      startProcess args
  end.

Definition del (src : Wrapper.Paths) (options : option FileOpOptions)
  : Settled :=
  match Wrapper.validateInput Wrapper.delete src (Wrapper.Arr []) with
  | inl error => mkSettled (inl error) []
  | inr (srcPaths, _) =>
      let from := joinSpace (map quoted srcPaths) in
      let args :=
        L "delete " ++ (if showDialog options then L "--show-errors" else [])
          ++ L " --from " ++ from in
      startProcess args
  end.

End Api.

End WrapperApi.

(** ** Further notions used in the statements *)

(** An argument that is taken for an action or a path: it does not begin
    with two dashes. *)
Definition positional (arg : string) : Prop := String.prefix "--" arg = false.

(** Nothing the argument loop has kept begins with two dashes. *)
Definition keptPositional (st : Locals) : Prop :=
  positional (action st) /\ Forall positional (srcPaths st) /\
  Forall positional (destPaths st).

(** The operation code [performFileOperation] sets for an action. *)
Definition operationOf (action : string) : option UINT :=
  if (action =? "copy")%string then Some FO_COPY
  else if (action =? "move")%string then Some FO_MOVE
  else if (action =? "delete")%string then Some FO_DELETE
  else None.

(** The fields of a text between its tabs. *)
Fixpoint tabFields (s : string) : list string :=
  match s with
  | "" => [""%string]
  | String c rest =>
      if Ascii.eqb c TAB then ""%string :: tabFields rest
      else match tabFields rest with
           | f :: fs => String c f :: fs
           | [] => [String c ""]
           end
  end.

(** A text of 7-bit characters. *)
Definition asciiText (s : string) : Prop :=
  Forall isAscii7 (list_ascii_of_string s).

(** The paths [validateInput] works on for an argument: those of
    [x ?? ''], trimmed if a string, and wrapped in an array. *)
Definition pathsOf (x : Wrapper.Paths) : list Wrapper.jsstring :=
  Wrapper.toPaths (Wrapper.trimIfString (Wrapper.orEmpty x)).

(** * Properties *)

(** ** Strings *)

Lemma append_nil_l (s : string) : "" +:+ s = s.
Proof. reflexivity. Qed.

Lemma append_cons (c : ascii) (a b : string) :
  String c a +:+ b = String c (a +:+ b).
Proof. reflexivity. Qed.

Lemma append_assoc (a b c : string) : (a +:+ b) +:+ c = a +:+ (b +:+ c).
Proof.
  induction a as [|x a IH]; [reflexivity|].
  rewrite !append_cons. now rewrite IH.
Qed.

Lemma append_nil_r (a : string) : a +:+ "" = a.
Proof.
  induction a as [|x a IH]; [reflexivity|].
  rewrite append_cons. now rewrite IH.
Qed.

Lemma lineEnds_append (a b : string) :
  lineEnds (a +:+ b) = lineEnds a + lineEnds b.
Proof.
  induction a as [|x a IH]; [reflexivity|].
  rewrite append_cons. cbn [lineEnds]. rewrite IH. lia.
Qed.

(** The hexadecimal digits of a number hold no line end. *)
Lemma lineEnds_of_pos (p : positive) :
  forall rest : string,
    lineEnds (HexString.Raw.of_pos p rest) = lineEnds rest.
Proof.
  remember (Pos.to_nat p) as n eqn:E. revert p E.
  induction n as [n IH] using lt_wf_ind. intros p -> rest.
  do 4 try destruct p as [p|p|]; try reflexivity;
    cbn [HexString.Raw.of_pos];
    (rewrite (IH (Pos.to_nat p)); [reflexivity|lia|reflexivity]).
Qed.

Lemma lineEnds_hex (x : int) : lineEnds (hex x) = 0.
Proof.
  unfold hex. destruct (to_DWORD x); try reflexivity.
  apply lineEnds_of_pos.
Qed.

(** ** The decoder meets the three facts of the interface *)

Module Utf8Facts.
Import Utf8.

Lemma widen_range c : (0 <= widen c < 256)%Z.
Proof.
  unfold widen. pose proof (N_ascii_bounded c). lia.
Qed.

Lemma widen_inj c d : widen c = widen d -> c = d.
Proof.
  unfold widen. intros H. apply N2Z.inj in H.
  rewrite <- (ascii_N_embedding c), <- (ascii_N_embedding d). now f_equal.
Qed.

Lemma string_length_ind (P : string -> Prop) :
  (forall s, (forall t, (String.length t < String.length s)%nat -> P t) -> P s) ->
  forall s, P s.
Proof.
  intros step s. 
  assert (H : forall n t, (String.length t < n)%nat -> P t).
  { induction n as [|n IH]; intros t Ht; [lia|].
    apply step. intros t' Ht'. apply IH. lia. }
  apply (H (S (String.length s))). lia.
Qed.

Lemma decode_ascii7 a c b :
  isAscii7 c -> decode (a +:+ String c b) = decode a ++ widen c :: decode b.
Proof.
  unfold isAscii7. intros Hc.
  assert (Hnc : isCont (widen c) = false).
  { unfold isCont. destruct (Z.leb_spec 0x80 (widen c)); [lia|reflexivity]. }
  induction a as [a IH] using string_length_ind.
  destruct a as [|c0 r].
  - rewrite append_nil_l. cbn [decode app].
    destruct (Z.ltb_spec (widen c) 0x80); [reflexivity|lia].
  - assert (IHr := IH r ltac:(cbn; lia)).
    rewrite append_cons. cbn [decode].
    rewrite IHr.
    destruct (widen c0 <? 128)%Z; [reflexivity|].
    destruct ((192 <=? widen c0) && (widen c0 <? 224))%Z.
    { destruct r as [|c1 r1]; rewrite ?append_cons, ?append_nil_l.
      - rewrite Hnc. reflexivity.
      - rewrite (IH r1 ltac:(cbn; lia)).
        destruct (isCont (widen c1) && _); reflexivity. }
    destruct ((224 <=? widen c0) && (widen c0 <? 240))%Z.
    { destruct r as [|c1 [|c2 r2]]; rewrite ?append_cons, ?append_nil_l.
      - destruct b; [reflexivity|]. rewrite Hnc. reflexivity.
      - rewrite Hnc, andb_false_r. reflexivity.
      - rewrite (IH r2 ltac:(cbn; lia)).
        destruct (isCont (widen c1) && _ && _ && _); reflexivity. }
    destruct ((240 <=? widen c0) && (widen c0 <? 248))%Z.
    { destruct r as [|c1 [|c2 [|c3 r3]]]; rewrite ?append_cons, ?append_nil_l.
      - destruct b as [|? [|? ?]]; try reflexivity. rewrite Hnc. reflexivity.
      - destruct b; [reflexivity|]. rewrite Hnc, andb_false_r. reflexivity.
      - rewrite Hnc, andb_false_r. reflexivity.
      - rewrite (IH r3 ltac:(cbn; lia)).
        destruct (isCont (widen c1) && _ && _ && _ && _); reflexivity. }
    reflexivity.
Qed.

Lemma decode_ascii7_only s c :
  isAscii7 c -> In (widen c) (decode s) -> In c (list_ascii_of_string s).
Proof.
  unfold isAscii7. intros Hc.
  induction s as [s IH] using string_length_ind.
  destruct s as [|c0 r]; [intros []|].
  assert (IHr := IH r ltac:(cbn; lia)).
  assert (Hbad : In (widen c) (REPLACEMENT :: decode r) ->
                 In c (list_ascii_of_string (String c0 r))).
  { intros [E|E]; [unfold REPLACEMENT in E; lia|right; auto]. }
  cbn [decode].
  destruct (widen c0 <? 128)%Z.
  { intros [E|E]; [left; now apply widen_inj|right; auto]. }
  destruct ((192 <=? widen c0) && (widen c0 <? 224))%Z.
  { destruct r as [|c1 r1]; [exact Hbad|].
    destruct (isCont (widen c1) && _) eqn:E; [|exact Hbad].
    apply andb_prop in E as [_ E%Z.leb_le].
    intros [E'|E']; [lia|]. right; right. apply (IH r1); [cbn; lia|exact E']. }
  destruct ((224 <=? widen c0) && (widen c0 <? 240))%Z.
  { destruct r as [|c1 [|c2 r2]]; try exact Hbad.
    destruct (isCont (widen c1) && _ && _ && _) eqn:E; [|exact Hbad].
    apply andb_prop in E as [E _]. apply andb_prop in E as [_ E%Z.leb_le].
    intros [E'|E']; [lia|]. right; right; right.
    apply (IH r2); [cbn; lia|exact E']. }
  destruct ((240 <=? widen c0) && (widen c0 <? 248))%Z.
  { destruct r as [|c1 [|c2 [|c3 r3]]]; try exact Hbad.
    destruct (isCont (widen c1) && _ && _ && _ && _) eqn:E; [|exact Hbad].
    apply andb_prop in E as [E _]. apply andb_prop in E as [_ E%Z.leb_le].
    match goal with
    | |- context [((?u - _) / _)%Z] =>
        pose proof (Z.div_pos (u - 0x10000) 0x400);
        pose proof (Z.mod_pos_bound (u - 0x10000) 0x400)
    end.
    intros [E'|[E'|E']]; [lia|lia|]. right; right; right; right.
    apply (IH r3); [cbn; lia|exact E']. }
  exact Hbad.
Qed.

(** A host that converts with the decoder. *)
Definition host (format : DWORD -> option string)
    (shell : SHFILEOPSTRUCTW -> int * bool) : Host :=
  {| utf8ToWide := decode;
     utf8_empty := eq_refl;
     utf8_ascii7 := decode_ascii7;
     utf8_ascii7_only := decode_ascii7_only;
     FormatMessageA := format;
     shellResult := shell |}.

End Utf8Facts.

(** ** Two hosts to run the launcher on *)

(** A host on which the formatter knows no message and every shell
    operation succeeds. *)
Definition quietHost : Host :=
  Utf8Facts.host (fun _ => None) (fun _ => (0%Z, false)).

(** A host on which the formatter answers for code 5 with a message that
    ends in a carriage return and a line feed, as system messages do. *)
Definition crlfHost : Host :=
  Utf8Facts.host
    (fun code => if (code =? 5)%Z
                 then Some ("Access is denied." +:+ String "013" (String "010" ""))%string
                 else None)
    (fun _ => (5%Z, false)).

(** A host on which every shell operation returns 0 with the aborted flag
    set. *)
Definition abortedHost : Host :=
  Utf8Facts.host (fun _ => None) (fun _ => (0%Z, true)).

(** A host on which the formatter knows the message of code 5 only. *)
Definition deniedHost : Host :=
  Utf8Facts.host
    (fun code => if (code =? 5)%Z then Some "Access is denied."%string else None)
    (fun _ => (5%Z, false)).

(** ** The validator *)

Lemma reject_run (msg : string) (w : World) :
  reject msg w =
  (false, mkWorld (stdout w +:+ msg +:+ endl +:+ usageText)
                  (dialogs w) (shellCalls w)).
Proof.
  unfold reject, printUsage, bind, cout, ret, usageText. cbn.
  now rewrite !append_assoc.
Qed.

Ltac size_cases :=
  repeat match goal with
  | |- context [(?a =? ?b)%nat] => destruct (Nat.eqb_spec a b)
  | |- context [(?a <? ?b)%nat] => destruct (Nat.ltb_spec a b)
  end; cbn [negb andb orb].

Lemma inputIsValid_rules action srcPaths destPaths w :
  (inputIsValid action srcPaths destPaths w).1 = true <->
  fiveRules action srcPaths destPaths.
Proof.
  unfold inputIsValid, fiveRules.
  destruct (String.eqb_spec action "") as [He|He].
  { rewrite reject_run. cbn. split; [discriminate|]. intros [[? _] _]. done. }
  destruct (String.eqb_spec action "delete") as [Hd|Hd].
  - subst action. cbn [String.eqb Ascii.eqb Bool.eqb negb andb].
    destruct (decide _) as [_|Hn]; [|done].
    size_cases; rewrite ?reject_run; cbn [fst ret]; split;
      try discriminate; try reflexivity; try lia; intros _;
      repeat split; auto; try lia; discriminate.
  - destruct (decide _) as [Hn|_]; [done|].
    destruct (String.eqb_spec action "copy") as [Hc|Hc];
    destruct (String.eqb_spec action "move") as [Hm|Hm];
    cbn [negb andb].
    4: { rewrite reject_run. cbn. split; [discriminate|].
         intros [[_ [?|[?|?]]] _]; done. }
    all: size_cases; rewrite ?reject_run; cbn [fst ret]; split;
      try discriminate; try reflexivity; try lia; intros _;
      repeat split; auto; lia.
Qed.

Section LauncherFacts.

Context {host : Host}.

(** ** The result reporter *)

Lemma handleStatus_cancelled opReturnCode wasAborted action show w :
  wasAborted = true \/ opReturnCode = ERROR_CANCELLED ->
  handleStatus opReturnCode wasAborted action show w =
  (tt, mkWorld (stdout w +:+ "cancelled" +:+ endl) (dialogs w) (shellCalls w)).
Proof.
  intros H. unfold handleStatus.
  assert (E : wasAborted || (opReturnCode =? ERROR_CANCELLED)%Z = true).
  { destruct H as [->| ->]; [reflexivity|]. rewrite Z.eqb_refl. apply orb_true_r. }
  rewrite E. unfold bind, cout. cbn. now rewrite append_assoc.
Qed.

Lemma handleStatus_ok wasAborted action show w :
  wasAborted = false ->
  handleStatus 0%Z wasAborted action show w =
  (tt, mkWorld (stdout w +:+ "ok" +:+ endl) (dialogs w) (shellCalls w)).
Proof.
  intros ->. unfold handleStatus, bind, cout. cbn. now rewrite append_assoc.
Qed.

Lemma handleStatus_failed opReturnCode wasAborted action show w :
  failed opReturnCode wasAborted ->
  handleStatus opReturnCode wasAborted action show w =
  (tt, mkWorld (stdout w +:+ "error 0x" +:+ hex opReturnCode +:+ ": "
                +:+ getErrorAsString (to_DWORD opReturnCode) +:+ endl)
               (if show && ((action =? "copy")%string || (action =? "move")%string
                            || (action =? "delete")%string)
                then dialogs w ++ [errorBox opReturnCode action] else dialogs w)
               (shellCalls w)).
Proof.
  intros (-> & H0 & Hc). unfold handleStatus.
  apply Z.eqb_neq in H0, Hc. rewrite H0, Hc. cbn [orb].
  unfold errorBox.
  destruct show; cbn [andb];
    [destruct (action =? "copy")%string; [|destruct (action =? "move")%string;
       [|destruct (action =? "delete")%string]]|];
    unfold bind, cout, MessageBox, ret; cbn [orb stdout dialogs shellCalls];
    rewrite !append_assoc; reflexivity.
Qed.

Lemma outcome_cases opReturnCode wasAborted :
  (wasAborted = true \/ opReturnCode = ERROR_CANCELLED) \/
  (wasAborted = false /\ opReturnCode = 0%Z) \/
  failed opReturnCode wasAborted.
Proof.
  unfold failed. destruct wasAborted; [left; now left|].
  destruct (Z.eq_dec opReturnCode ERROR_CANCELLED); [left; now right|].
  destruct (Z.eq_dec opReturnCode 0%Z); [right; now left|].
  right; right; auto.
Qed.

Lemma handleStatus_shellCalls opReturnCode wasAborted action show w :
  shellCalls (handleStatus opReturnCode wasAborted action show w).2 = shellCalls w.
Proof.
  destruct (outcome_cases opReturnCode wasAborted) as [H|[[H ->]|H]].
  - now rewrite handleStatus_cancelled.
  - now rewrite handleStatus_ok.
  - now rewrite handleStatus_failed.
Qed.

Lemma handleStatus_dialogs opReturnCode wasAborted action show w :
  In action ["copy"; "move"; "delete"]%string ->
  dialogs (handleStatus opReturnCode wasAborted action show w).2 =
  dialogs w ++
  (if show && negb wasAborted && negb (opReturnCode =? 0)%Z
      && negb (opReturnCode =? ERROR_CANCELLED)%Z
   then [errorBox opReturnCode action] else []).
Proof.
  intros Hact.
  assert (Hname : ((action =? "copy") || (action =? "move")
                   || (action =? "delete"))%string = true).
  { destruct Hact as [<-|[<-|[<-|[]]]]; reflexivity. }
  destruct (outcome_cases opReturnCode wasAborted) as [H|[[H ->]|H]].
  - rewrite handleStatus_cancelled by exact H. cbn [snd dialogs].
    destruct H as [->| ->]; rewrite ?Z.eqb_refl;
      cbn [negb andb]; rewrite ?andb_false_r; now rewrite app_nil_r.
  - rewrite handleStatus_ok by exact H. cbn [snd dialogs].
    rewrite Z.eqb_refl. cbn [negb andb].
    rewrite ?andb_false_r. cbn [andb]. now rewrite app_nil_r.
  - rewrite handleStatus_failed by exact H. cbn [snd dialogs].
    destruct H as (-> & H0%Z.eqb_neq & Hc%Z.eqb_neq).
    rewrite H0, Hc, Hname. cbn [negb]. rewrite !andb_true_r.
    destruct show; [reflexivity|now rewrite app_nil_r].
Qed.

(** ** The executor *)

Lemma performFileOperation_run action srcPaths destPaths show w :
  exists op : SHFILEOPSTRUCTW,
    performFileOperation action srcPaths destPaths show w =
    ((shellResult op).1,
     (handleStatus (shellResult op).1 (shellResult op).2 action show
        (mkWorld (stdout w) (dialogs w) (shellCalls w ++ [op]))).2) /\
    pFrom op = combileFileNames srcPaths /\
    pTo op = combileFileNames destPaths /\
    fFlags op =
      (if (1 <? length destPaths)%nat
       then Z.lor (Z.lor (Z.lor FOF_ALLOWUNDO FOF_NOCONFIRMMKDIR)
                         FOF_WANTNUKEWARNING) FOF_MULTIDESTFILES
       else Z.lor (Z.lor FOF_ALLOWUNDO FOF_NOCONFIRMMKDIR) FOF_WANTNUKEWARNING).
Proof.
  unfold performFileOperation, bind, SHFileOperationW, ret. cbv zeta.
  match goal with |- context [shellResult ?o] => exists o end.
  split; [|cbn [pFrom pTo fFlags]; repeat split].
  match goal with |- context [handleStatus ?a ?b ?c ?d ?e] =>
    destruct (handleStatus a b c d e) as [[] w'] end.
  reflexivity.
Qed.

End LauncherFacts.

(** ** The encoder *)

Section EncoderFacts.

Context {host : Host}.

Lemma list_ascii_append (a b : string) :
  list_ascii_of_string (a +:+ b) = list_ascii_of_string a ++ list_ascii_of_string b.
Proof.
  induction a as [|x a IH]; [reflexivity|].
  rewrite append_cons. cbn. now rewrite IH.
Qed.

Lemma c_str_plain (s : string) : ~ occurs NUL s -> c_str s = s.
Proof.
  unfold occurs. induction s as [|x s IH]; [reflexivity|].
  cbn. intros H. destruct (Ascii.eqb_spec x NUL) as [->|_].
  - exfalso. apply H. now left.
  - rewrite IH; [reflexivity|]. intros H'. apply H. now right.
Qed.

Lemma c_str_cut (a b : string) :
  ~ occurs NUL a -> c_str (a +:+ String NUL b) = a.
Proof.
  unfold occurs. induction a as [|x a IH]; [reflexivity|].
  rewrite append_cons. cbn. intros H.
  destruct (Ascii.eqb_spec x NUL) as [->|_].
  - exfalso. apply H. now left.
  - rewrite IH; [reflexivity|]. intros H'. apply H. now right.
Qed.

Lemma isAscii7_TAB : isAscii7 TAB.
Proof. reflexivity. Qed.

Lemma isAscii7_NUL : isAscii7 NUL.
Proof. reflexivity. Qed.

(** The first loop: every path followed by a tab. *)
Lemma combined_fold (files : list string) (init : string) :
  fold_left (fun acc file => acc +:+ (file +:+ String TAB "")) files init =
  init +:+ fold_right (fun file rest => file +:+ String TAB rest) ""%string files.
Proof.
  revert init. induction files as [|file files IH]; intros init; cbn.
  - now rewrite append_nil_r.
  - rewrite IH. rewrite !append_assoc. rewrite append_cons, append_nil_l.
    reflexivity.
Qed.

Lemma combined_plain (files : list string) :
  plainPaths files ->
  ~ occurs NUL (fold_right (fun file rest => file +:+ String TAB rest) ""%string files).
Proof.
  unfold occurs. induction 1 as [|file files [_ Hn] _ IH]; cbn; [tauto|].
  rewrite list_ascii_append. cbn. intros H.
  apply in_app_or in H as [H|[H|H]]; [now apply Hn|discriminate|tauto].
Qed.

Lemma combined_wide (files : list string) :
  utf8ToWide (fold_right (fun file rest => file +:+ String TAB rest) ""%string files)
  = joined (widen TAB) (map utf8ToWide files).
Proof.
  unfold joined. induction files as [|file files IH]; cbn.
  - apply utf8_empty.
  - rewrite utf8_ascii7 by exact isAscii7_TAB. rewrite IH.
    now rewrite <- app_assoc.
Qed.

(** The conversion of a plain path holds no tab and no terminator. *)
Lemma wide_plain (file : string) :
  ~ occurs TAB file -> ~ occurs NUL file ->
  Forall (fun w => w <> 0%Z /\ w <> widen TAB) (utf8ToWide file).
Proof.
  intros Ht Hn. apply List.Forall_forall. intros w Hw. split; intros ->.
  - apply Hn. apply utf8_ascii7_only; [exact isAscii7_NUL|exact Hw].
  - apply Ht. apply utf8_ascii7_only; [exact isAscii7_TAB|exact Hw].
Qed.

Lemma wcslen_terminated (s rest : list wchar_t) :
  Forall (fun w => w <> 0%Z) s -> wcslen (s ++ 0%Z :: rest) = length s.
Proof.
  induction 1 as [|w s Hw _ IH]; [reflexivity|].
  cbn. destruct (Z.eqb_spec w 0); [contradiction|]. now rewrite IH.
Qed.

(** The second loop rewrites the code units it visits, and only those. *)
Lemma tab_loop (pre s rest : list wchar_t) :
  fold_left tabToNul (seq (length pre) (length s)) (pre ++ s ++ rest) =
  pre ++ map untab s ++ rest.
Proof.
  revert pre. induction s as [|w s IH]; intros pre; [reflexivity|].
  cbn [length seq fold_left map app].
  assert (Hstep : tabToNul (pre ++ w :: s ++ rest) (length pre) =
                  (pre ++ [untab w]) ++ s ++ rest).
  { unfold tabToNul, untab. rewrite list_lookup_middle by reflexivity.
    destruct (w =? widen TAB)%Z.
    - rewrite (insert_app_r_alt pre (w :: s ++ rest) (length pre)) by reflexivity.
      rewrite Nat.sub_diag. cbn.
      now rewrite <- app_assoc.
    - now rewrite <- app_assoc. }
  rewrite Hstep.
  replace (S (length pre)) with (length (pre ++ [untab w]))
    by (rewrite length_app; cbn; lia).
  rewrite IH. now rewrite <- app_assoc.
Qed.

Lemma tab_loop_all (s rest : list wchar_t) :
  fold_left tabToNul (seq 0 (length s)) (s ++ rest) = map untab s ++ rest.
Proof. exact (tab_loop [] s rest). Qed.

Lemma untab_joined (es : list (list wchar_t)) :
  Forall (Forall (fun w => w <> 0%Z /\ w <> widen TAB)) es ->
  map untab (joined (widen TAB) es) = joined 0%Z es.
Proof.
  unfold joined. induction 1 as [|e es He _ IH]; [reflexivity|].
  cbn. rewrite !map_app, IH. f_equal. f_equal.
  clear IH. induction He as [|w e [_ Hw] _ IHe]; [reflexivity|].
  cbn. rewrite IHe. unfold untab.
  destruct (Z.eqb_spec w (widen TAB)); [contradiction|reflexivity].
Qed.

Lemma joined_no_nul (es : list (list wchar_t)) :
  Forall (Forall (fun w => w <> 0%Z /\ w <> widen TAB)) es ->
  Forall (fun w => w <> 0%Z) (joined (widen TAB) es).
Proof.
  unfold joined. induction 1 as [|e es He _ IH]; [constructor|].
  cbn. rewrite <- app_assoc. apply List.Forall_app. split.
  - eapply List.Forall_impl; [|exact He]. now intros w [? _].
  - constructor; [discriminate|exact IH].
Qed.

Lemma nulTerminated_entry (e rest : list wchar_t) :
  Forall (fun w => w <> 0%Z) e ->
  nulTerminated (e ++ 0%Z :: rest) = e :: nulTerminated rest.
Proof.
  induction 1 as [|w e Hw _ IH]; [reflexivity|].
  cbn. destruct (Z.eqb_spec w 0); [contradiction|]. now rewrite IH.
Qed.

Lemma nulTerminated_joined (es : list (list wchar_t)) (rest : list wchar_t) :
  Forall (Forall (fun w => w <> 0%Z /\ w <> widen TAB)) es ->
  nulTerminated (joined 0%Z es ++ rest) = es ++ nulTerminated rest.
Proof.
  unfold joined. induction 1 as [|e es He _ IH]; [reflexivity|].
  cbn. rewrite <- !app_assoc. cbn. rewrite nulTerminated_entry.
  - now rewrite IH.
  - eapply List.Forall_impl; [|exact He]. now intros w [? _].
Qed.

Lemma dropTrailingEmpty_snoc (es : list (list wchar_t)) :
  dropTrailingEmpty (es ++ [[]]) = es.
Proof.
  unfold dropTrailingEmpty. rewrite rev_app_distr. cbn. apply rev_involutive.
Qed.

(** The buffer [combileFileNames] builds from plain paths. *)
Lemma combileFileNames_plain (files : list string) :
  plainPaths files ->
  combileFileNames files = joined 0%Z (map utf8ToWide files) ++ [0%Z].
Proof.
  intros Hp.
  assert (Hw : Forall (Forall (fun w => w <> 0%Z /\ w <> widen TAB))
                      (map utf8ToWide files)).
  { apply List.Forall_map. eapply List.Forall_impl; [|exact Hp].
    intros file [Ht Hn]. now apply wide_plain. }
  unfold combileFileNames, stringToLpwstr, MultiByteToWideChar.
  rewrite firstn_all.
  rewrite combined_fold, append_nil_l.
  rewrite c_str_plain by now apply combined_plain.
  rewrite combined_wide.
  rewrite wcslen_terminated by now apply joined_no_nul.
  rewrite tab_loop_all. now rewrite untab_joined.
Qed.

Lemma roundtrip_plain (files : list string) :
  plainPaths files ->
  decodePathList (combileFileNames files) = map utf8ToWide files.
Proof.
  intros Hp. rewrite combileFileNames_plain by exact Hp.
  unfold decodePathList. rewrite nulTerminated_joined.
  - cbn. apply dropTrailingEmpty_snoc.
  - apply List.Forall_map. eapply List.Forall_impl; [|exact Hp].
    intros file [Ht Hn]. now apply wide_plain.
Qed.

End EncoderFacts.

Section EncoderClaims.

Context {host : Host}.

(** A text of 7-bit characters converts to the same characters, widened. *)
Lemma utf8ToWide_ascii7 (s : string) :
  Forall isAscii7 (list_ascii_of_string s) -> utf8ToWide s = L s.
Proof.
  unfold L. induction s as [|c s IH]; cbn; intros H.
  - apply utf8_empty.
  - inversion H as [|? ? Hc Hs]; subst.
    rewrite <- (append_nil_l (String c s)).
    rewrite utf8_ascii7 by exact Hc.
    rewrite utf8_empty, IH by exact Hs. reflexivity.
Qed.

(** A tab inside a path is taken for the separator: the path is encoded as
    the two paths around the tab. *)
Lemma combileFileNames_tab (a b : string) :
  combileFileNames [a +:+ String TAB b] = combileFileNames [a; b].
Proof.
  unfold combileFileNames. cbn [fold_left].
  rewrite !append_nil_l, !append_assoc, !append_cons, !append_nil_l.
  reflexivity.
Qed.

Lemma plain_two_files :
  plainPaths ["C:\a.txt"; "C:\b.txt"]%string.
Proof.
  repeat constructor; unfold occurs; cbn; intuition discriminate.
Qed.

(** C5: encoding the list ["C:\a.txt", "C:\b.txt"] and decoding the buffer
    by splitting on the NUL terminators, the trailing empty entry discarded,
    gives back exactly this list (as wide strings). *)
Theorem roundtrip_two_files :
  decodePathList (combileFileNames ["C:\a.txt"; "C:\b.txt"]%string)
  = [L "C:\a.txt"; L "C:\b.txt"].
Proof.
  rewrite roundtrip_plain by exact plain_two_files.
  cbn [map]. rewrite !utf8ToWide_ascii7; [reflexivity| |];
    repeat constructor.
Qed.

(** C10: the encoder separates with the tab.  For paths that hold neither a
    tab nor a NUL, decoding the buffer gives back the paths (converted to
    wide strings); a path that holds a tab is split at the tab into two
    entries, so that for some list with such a path the decoding is not the
    list. *)
Theorem tab_is_the_separator :
  (forall files : list string,
     plainPaths files ->
     decodePathList (combileFileNames files) = map utf8ToWide files) /\
  (forall a b : string,
     plainPaths [a; b] ->
     decodePathList (combileFileNames [a +:+ String TAB b])
     = [utf8ToWide a; utf8ToWide b]) /\
  (exists files : list string,
     Exists (occurs TAB) files /\
     decodePathList (combileFileNames files) <> map utf8ToWide files).
Proof.
  split; [exact roundtrip_plain|]. split.
  - intros a b Hp. rewrite combileFileNames_tab. now rewrite roundtrip_plain.
  - exists [("a" +:+ String TAB "b")%string]. split.
    + constructor. unfold occurs. vm_compute. auto.
    + rewrite combileFileNames_tab, roundtrip_plain.
      * cbn. discriminate.
      * repeat constructor; unfold occurs; cbn; intuition discriminate.
Qed.

End EncoderClaims.

(** ** The claims about the validator *)

(** C2: the validator accepts exactly when the five rules hold; with three
    sources, two destinations are rejected and one destination is accepted
    (for copy and for move). *)
Theorem validator_five_rules (action : string)
    (srcPaths destPaths : list string) (w : World) :
  ((inputIsValid action srcPaths destPaths w).1 = true <->
   fiveRules action srcPaths destPaths) /\
  (forall a b c d e : string,
     (inputIsValid "copy" [a; b; c] [d; e] w).1 = false /\
     (inputIsValid "copy" [a; b; c] [d] w).1 = true /\
     (inputIsValid "move" [a; b; c] [d; e] w).1 = false /\
     (inputIsValid "move" [a; b; c] [d] w).1 = true).
Proof.
  split; [apply inputIsValid_rules|].
  intros a b c d e. repeat split; reflexivity.
Qed.

(** An accepted action is one of the three the reporter has a dialog for. *)
Lemma inputIsValid_action action srcPaths destPaths w :
  (inputIsValid action srcPaths destPaths w).1 = true ->
  In action ["copy"; "move"; "delete"]%string.
Proof.
  intros H. apply inputIsValid_rules in H.
  destruct H as ((_ & [H|[H|H]]) & _); subst action; cbn; auto.
Qed.

Lemma inputIsValid_run action srcPaths destPaths w :
  inputIsValid action srcPaths destPaths w = (true, w) \/
  exists msg, inputIsValid action srcPaths destPaths w = reject msg w.
Proof.
  unfold inputIsValid.
  repeat match goal with
  | |- context [if ?c then _ else _] => destruct c
  end; eauto.
Qed.

(** A rejection prints one of the seven messages, none of which holds a line
    end. *)
Lemma inputIsValid_rejection action srcPaths destPaths w :
  inputIsValid action srcPaths destPaths w = (true, w) \/
  exists msg, In msg rejections /\
              inputIsValid action srcPaths destPaths w = reject msg w.
Proof.
  unfold inputIsValid, rejections.
  repeat match goal with
  | |- context [if ?c then _ else _] => destruct c
  end; try (left; reflexivity);
  right; eexists; (split; [|reflexivity]); cbn; auto 10.
Qed.

Lemma rejections_single_line (msg : string) :
  In msg rejections -> lineEnds msg = 0.
Proof.
  unfold rejections. cbn [In].
  intros H. repeat (destruct H as [<-|H]; [reflexivity|]). elim H.
Qed.

Lemma toPaths_length (l : list Wrapper.jsstring) :
  length (Wrapper.toPaths (Wrapper.Arr l)) = length l.
Proof. destruct l; reflexivity. Qed.

(** When the wrapper's validator returns, for two arrays of paths. *)
Lemma validateInput_returns (a : Wrapper.Action)
    (src dest : list Wrapper.jsstring) :
  Wrapper.returns (Wrapper.validateInput a (Wrapper.Arr src) (Wrapper.Arr dest))
  <->
  1 <= length src /\
  (a <> Wrapper.delete -> 1 <= length dest) /\
  length dest <= length src /\
  (1 < length src -> 1 < length dest -> length src = length dest).
Proof.
  unfold Wrapper.returns, Wrapper.validateInput.
  cbn [Wrapper.orEmpty Wrapper.trimIfString].
  rewrite !toPaths_length.
  destruct (Nat.eqb_spec (length src) 0) as [Hs|Hs].
  { split; [intros [? [=]]|lia]. }
  assert (Hdel : forall b : bool,
            (if match a with Wrapper.delete => false | _ => true end && b
             then true else false) = true <-> (a <> Wrapper.delete /\ b = true)).
  { intros b. destruct a, b; cbn; split; intros H;
      try discriminate; try reflexivity;
      try (split; [discriminate|reflexivity]);
      destruct H as [H1 H2]; congruence. }
  destruct (match a with Wrapper.delete => false | _ => true end
            && (length dest =? 0)%nat) eqn:E.
  { specialize (Hdel (length dest =? 0)%nat). rewrite E in Hdel.
    destruct Hdel as [Hdel _]. destruct (Hdel eq_refl) as [Ha Hz].
    apply Nat.eqb_eq in Hz.
    split; [intros [? [=]]|]. intros (_ & H & _). specialize (H Ha). lia. }
  assert (Hdest : a <> Wrapper.delete -> 1 <= length dest).
  { intros Ha. specialize (Hdel (length dest =? 0)%nat). rewrite E in Hdel.
    destruct (Nat.eqb_spec (length dest) 0) as [Hz|Hz]; [|lia].
    destruct Hdel as [_ Hdel]. discriminate Hdel. now split. }
  clear E Hdel.
  size_cases; split;
    try (intros [? [=]]); try (intros; eexists; reflexivity);
    try (intros (? & ? & ? & ?); lia); repeat split; auto; lia.
Qed.

(** C9, as the code has it: for copy and move, and for delete without
    destination paths, the launcher's validator accepts exactly when the
    wrapper's [validateInput] returns; for delete with destination paths the
    launcher rejects, a case the wrapper's validator does not check. *)
Theorem validators_agree (a : Wrapper.Action)
    (src dest : list Wrapper.jsstring) (enc : Wrapper.jsstring -> string)
    (w : World) :
  (a <> Wrapper.delete \/ dest = [] ->
   ((inputIsValid (Wrapper.actionName a) (map enc src) (map enc dest) w).1 = true
    <-> Wrapper.returns (Wrapper.validateInput a (Wrapper.Arr src) (Wrapper.Arr dest)))) /\
  (a = Wrapper.delete -> dest <> [] ->
   (inputIsValid (Wrapper.actionName a) (map enc src) (map enc dest) w).1 = false).
Proof.
  split.
  - intros Ha. rewrite inputIsValid_rules, validateInput_returns.
    unfold fiveRules. rewrite !length_map.
    destruct a; cbn [Wrapper.actionName];
      (destruct (decide _) as [Hdel|Hdel]; [try discriminate|try done]).
    + split; [intros (_ & ? & ? & ? & ?); auto|].
      intros (? & H & ? & ?). repeat split; auto; discriminate.
    + split; [intros (_ & ? & ? & ? & ?); auto|].
      intros (? & H & ? & ?). repeat split; auto; discriminate.
    + destruct Ha as [Ha| ->]; [done|]. cbn [length].
      split; [intros (_ & ? & ? & ? & ?); repeat split; auto; try lia; done|].
      intros (? & H & ? & ?). repeat split; auto; discriminate.
  - intros -> Hd. cbn [Wrapper.actionName].
    destruct (inputIsValid "delete" (map enc src) (map enc dest) w).1 eqn:E;
      [|reflexivity].
    apply inputIsValid_rules in E. destruct E as (_ & _ & E & _).
    cbn in E. destruct dest; [done|discriminate].
Qed.

(** ** The claims about the launcher *)

Section LauncherClaims.

Context {host : Host}.

(** The messages of the table hold no line end. *)
Lemma table_single_line (errorCode : DWORD) (message : string) :
  errors !! errorCode = Some message -> lineEnds message = 0.
Proof.
  intros H. unfold errors in H. cbn [fold_left fst snd] in H.
  repeat (apply lookup_insert_Some in H as [[_ <-]|[_ H]]; [reflexivity|]).
  rewrite lookup_empty in H. discriminate H.
Qed.

(** C1, as the code has it: the aborted flag or the status ERROR_CANCELLED
    prints "cancelled", also when the status is 0; otherwise the status 0
    prints "ok"; otherwise the text [error 0x<hex>: <message>] and a line end
    are printed.  What is printed is one line, except for an error whose
    message itself holds line ends: it then has one line end more than the
    message.  The messages of the table hold none. *)
Theorem reporter_state_machine (opReturnCode : int) (wasAborted : bool)
    (action : string) (show : bool) (w : World) :
  let printed := stdout (handleStatus opReturnCode wasAborted action show w).2 in
  let message := getErrorAsString (to_DWORD opReturnCode) in
  (wasAborted = true \/ opReturnCode = ERROR_CANCELLED ->
   printed = stdout w +:+ "cancelled" +:+ endl) /\
  (wasAborted = false -> opReturnCode = 0%Z ->
   printed = stdout w +:+ "ok" +:+ endl) /\
  (wasAborted = false -> opReturnCode <> 0%Z ->
   opReturnCode <> ERROR_CANCELLED ->
   printed = stdout w +:+ "error 0x" +:+ hex opReturnCode +:+ ": "
             +:+ message +:+ endl) /\
  (exists text : string,
     printed = stdout w +:+ text /\
     (failed opReturnCode wasAborted -> lineEnds text = 1 + lineEnds message) /\
     (~ failed opReturnCode wasAborted -> lineEnds text = 1)) /\
  (forall tableMessage : string,
     errors !! to_DWORD opReturnCode = Some tableMessage ->
     message = tableMessage /\ lineEnds message = 0).
Proof.
  cbv zeta. split; [|split; [|split; [|split]]].
  - intros H. now rewrite handleStatus_cancelled.
  - intros Ha ->. now rewrite handleStatus_ok.
  - intros Ha H0 Hc. now rewrite handleStatus_failed.
  - destruct (outcome_cases opReturnCode wasAborted) as [H|[[H H0]|H]].
    + rewrite handleStatus_cancelled by exact H. eexists.
      split; [reflexivity|]. split; [|reflexivity].
      intros (Ha & _ & Hc). destruct H as [H|H]; congruence.
    + rewrite H0. rewrite handleStatus_ok by exact H. eexists.
      split; [reflexivity|]. split; [|reflexivity].
      intros (_ & Hz & _). now elim Hz.
    + rewrite handleStatus_failed by exact H. eexists.
      split; [reflexivity|]. split; [|intros Hn; now elim Hn].
      intros _. rewrite !lineEnds_append, lineEnds_hex. cbn. lia.
  - intros tableMessage H. unfold getErrorAsString. rewrite H.
    split; [reflexivity|]. now apply (table_single_line _ _ H).
Qed.

(** C4, as the code has it: 0x71 maps to its fixed text, and a code absent
    from the table, such as 0x12345, gets the text of the system formatter,
    which is the empty string when the formatter fails. *)
Theorem error_text_lookup :
  getErrorAsString 0x71%Z
  = "The source and destination files are the same file."%string /\
  errors !! 0x12345%Z = None /\
  (forall errorCode : DWORD,
     errors !! errorCode = None ->
     getErrorAsString errorCode
     = match FormatMessageA errorCode with
       | Some message => message
       | None => ""%string
       end).
Proof.
  split; [reflexivity|]. split; [reflexivity|].
  intros errorCode H. unfold getErrorAsString. now rewrite H.
Qed.

(** C7: the parameter block of the shell call has the allow-undo, the
    no-confirm-on-directory-creation and the warn-before-permanent-delete
    flags set, whatever the action, delete included, and the
    multiple-destinations flag exactly when there is more than one
    destination path. *)
Theorem executor_flags (action : string) (srcPaths destPaths : list string)
    (show : bool) (w : World) :
  exists op : SHFILEOPSTRUCTW,
    shellCalls (performFileOperation action srcPaths destPaths show w).2
    = shellCalls w ++ [op] /\
    flagSet (fFlags op) FOF_ALLOWUNDO /\
    flagSet (fFlags op) FOF_NOCONFIRMMKDIR /\
    flagSet (fFlags op) FOF_WANTNUKEWARNING /\
    (flagSet (fFlags op) FOF_MULTIDESTFILES <-> 1 < length destPaths).
Proof.
  destruct (performFileOperation_run action srcPaths destPaths show w)
    as (op & Hrun & _ & _ & Hflags).
  exists op. rewrite Hrun. cbn [snd]. rewrite handleStatus_shellCalls.
  split; [reflexivity|]. rewrite Hflags. unfold flagSet.
  destruct (Nat.ltb_spec 1 (length destPaths)); repeat split;
    try reflexivity; try (intros _; assumption).
  - intros H'. vm_compute in H'. discriminate H'.
  - intros H'. lia.
Qed.

(** C8: for an action of a validated request, a dialog is shown exactly when
    [showErrorDialog] is set and the outcome is a failure; it is then one
    dialog, titled [Unable to <action> files (ERR 0x<hex>)], whose body is the
    translated message.  A cancelled outcome shows none. *)
Theorem dialog_on_failure (opReturnCode : int) (wasAborted : bool)
    (action : string) (show : bool) (w : World) :
  In action ["copy"; "move"; "delete"]%string ->
  let shown := dialogs (handleStatus opReturnCode wasAborted action show w).2 in
  (shown <> dialogs w <-> show = true /\ failed opReturnCode wasAborted) /\
  (show = true /\ failed opReturnCode wasAborted ->
   shown = dialogs w ++
     [mkBox (stringToLpwstr (getErrorAsString (to_DWORD opReturnCode)))
            (stringToLpwstr ("Unable to " +:+ action +:+ " files (ERR 0x"
                             +:+ hex opReturnCode +:+ ")"))
            MB_ICONWARNING]) /\
  (wasAborted = true \/ opReturnCode = ERROR_CANCELLED -> shown = dialogs w).
Proof.
  intros Hact. cbv zeta. rewrite handleStatus_dialogs by exact Hact.
  unfold failed.
  destruct show, wasAborted;
    destruct (Z.eqb_spec opReturnCode 0);
    destruct (Z.eqb_spec opReturnCode ERROR_CANCELLED);
    cbn [negb andb]; rewrite ?app_nil_r;
    (split; [split|split]);
    try (intros H; now elim H);
    try (intros (_ & ? & ? & ?); congruence);
    try (intros [? _]; congruence);
    try reflexivity;
    try (intros [?|?]; congruence).
  all: try (intros _; repeat split; auto).
  all: intros H; apply (f_equal (@length _)) in H;
    rewrite length_app in H; cbn in H; lia.
Qed.

End LauncherClaims.

(** ** The claims about the whole run *)

Section RunClaims.

Context {host : Host}.

Lemma main_rejected (argv : list string) (w : World) :
  let st := parseArgs argv in
  (inputIsValid (action st) (srcPaths st) (destPaths st) w).1 = false ->
  exists msg : string,
    main argv w =
    (1%Z, mkWorld (stdout w +:+ msg +:+ endl +:+ usageText)
                  (dialogs w) (shellCalls w)).
Proof.
  cbv zeta. intros H. unfold main, bind.
  destruct (inputIsValid_run (action (parseArgs argv)) (srcPaths (parseArgs argv))
              (destPaths (parseArgs argv)) w) as [E|[msg E]];
    rewrite E in *.
  - discriminate H.
  - exists msg. now rewrite reject_run.
Qed.

Lemma main_accepted (argv : list string) (w : World) :
  let st := parseArgs argv in
  (inputIsValid (action st) (srcPaths st) (destPaths st) w).1 = true ->
  main argv w =
  performFileOperation (action st) (srcPaths st) (destPaths st)
                       (showErrorDialog st) w.
Proof.
  cbv zeta. intros H. unfold main, bind.
  destruct (inputIsValid_run (action (parseArgs argv)) (srcPaths (parseArgs argv))
              (destPaths (parseArgs argv)) w) as [E|[msg E]];
    rewrite E in *.
  - reflexivity.
  - rewrite reject_run in H. discriminate H.
Qed.

(** C3, as the code has it: when validation fails the process prints the
    usage text, exits with 1 and makes no shell call; when it passes, the
    shell is called once and the exit code is the status the call returned,
    whatever is reported: with the aborted flag clear the status 0 is
    reported as ok, and a status other than 0 and ERROR_CANCELLED as an
    error; the status ERROR_CANCELLED, and any status returned with the
    aborted flag set, is reported as cancelled. *)
Theorem exit_code (argv : list string) (w : World) :
  let st := parseArgs argv in
  let run := main argv w in
  if (inputIsValid (action st) (srcPaths st) (destPaths st) w).1
  then exists op : SHFILEOPSTRUCTW,
         let status := (shellResult op).1 in
         let aborted := (shellResult op).2 in
         shellCalls run.2 = shellCalls w ++ [op] /\
         run.1 = status /\
         (aborted = false -> status = 0%Z ->
          stdout run.2 = stdout w +:+ "ok" +:+ endl) /\
         (aborted = true \/ status = ERROR_CANCELLED ->
          stdout run.2 = stdout w +:+ "cancelled" +:+ endl) /\
         (aborted = false -> status <> 0%Z -> status <> ERROR_CANCELLED ->
          stdout run.2 = stdout w +:+ "error 0x" +:+ hex status +:+ ": "
                         +:+ getErrorAsString (to_DWORD status) +:+ endl)
  else run.1 = 1%Z /\
       shellCalls run.2 = shellCalls w /\
       exists msg : string,
         stdout run.2 = stdout w +:+ msg +:+ endl +:+ usageText.
Proof.
  cbv zeta.
  destruct (inputIsValid _ _ _ w).1 eqn:E.
  - rewrite (main_accepted argv w E).
    destruct (performFileOperation_run (action (parseArgs argv))
                (srcPaths (parseArgs argv)) (destPaths (parseArgs argv))
                (showErrorDialog (parseArgs argv)) w) as (op & Hrun & _).
    exists op. rewrite Hrun. cbn [fst snd].
    split; [now rewrite handleStatus_shellCalls|].
    split; [reflexivity|]. split; [|split].
    + intros Ha H0. rewrite H0. now rewrite handleStatus_ok.
    + intros H. now rewrite handleStatus_cancelled.
    + intros Ha H0 Hc. now rewrite handleStatus_failed.
  - destruct (main_rejected argv w E) as [msg ->]. cbn.
    repeat split. now exists msg.
Qed.

(** C6, as the code has it: in a run that reaches the executor the encoder
    is applied to the source list, which has an entry, and to the destination
    list, which has an entry unless the action is delete: for delete the
    empty destination list is encoded. *)
Theorem encoder_inputs (argv : list string) (w : World) :
  let st := parseArgs argv in
  let run := main argv w in
  if (inputIsValid (action st) (srcPaths st) (destPaths st) w).1
  then exists op : SHFILEOPSTRUCTW,
         shellCalls run.2 = shellCalls w ++ [op] /\
         pFrom op = combileFileNames (srcPaths st) /\
         pTo op = combileFileNames (destPaths st) /\
         srcPaths st <> [] /\
         (destPaths st = [] <-> action st = "delete"%string)
  else shellCalls run.2 = shellCalls w.
Proof.
  cbv zeta.
  destruct (inputIsValid _ _ _ w).1 eqn:E.
  - rewrite (main_accepted argv w E).
    destruct (performFileOperation_run (action (parseArgs argv))
                (srcPaths (parseArgs argv)) (destPaths (parseArgs argv))
                (showErrorDialog (parseArgs argv)) w)
      as (op & Hrun & Hfrom & Hto & _).
    exists op. rewrite Hrun. cbn [snd]. rewrite handleStatus_shellCalls.
    apply inputIsValid_rules in E.
    destruct E as (_ & Hsrc & Hdest & _).
    repeat split; auto.
    + intros H. rewrite H in Hsrc. cbn in Hsrc. lia.
    + intros H. rewrite H in Hdest. destruct (decide _); [assumption|].
      cbn in Hdest. lia.
    + intros H. destruct (decide _); [|contradiction].
      now apply length_zero_iff_nil.
  - destruct (main_rejected argv w E) as [msg ->]. reflexivity.
Qed.

End RunClaims.

(** ** Concrete runs *)

Example hex_0x71 : hex 0x71%Z = "71"%string.
Proof. reflexivity. Qed.

Example hex_cancelled : hex ERROR_CANCELLED = "4c7"%string.
Proof. reflexivity. Qed.

Example hex_negative : hex (-1)%Z = "ffffffff"%string.
Proof. reflexivity. Qed.

Example decode_two_entries :
  decodePathList (L "a" ++ [0%Z] ++ L "bc" ++ [0%Z; 0%Z]) = [L "a"; L "bc"].
Proof. reflexivity. Qed.

Example encode_empty_list : combileFileNames (host := quietHost) [] = [0%Z].
Proof. reflexivity. Qed.

Example parse_copy :
  parseArgs ["FileOps.exe"; "copy"; "--show-errors"; "--from"; "a"; "b";
             "--quiet"; "--to"; "d"]%string
  = mkLocals true "copy" ["a"; "b"]%string ["d"%string] "to".
Proof. reflexivity. Qed.

Example run_copy_ok :
  main (host := quietHost)
       ["FileOps.exe"; "copy"; "--from"; "a"; "b"; "--to"; "d"]%string world0
  = (0%Z,
     mkWorld ("ok" +:+ endl) []
       [mkOp (Some FO_COPY) (L "a" ++ [0%Z] ++ L "b" ++ [0%Z; 0%Z])
             (L "d" ++ [0%Z; 0%Z]) 0x4240%Z]).
Proof. vm_compute. reflexivity. Qed.

Example run_copy_denied :
  main (host := deniedHost)
       ["FileOps.exe"; "copy"; "--from"; "a"; "--to"; "d"]%string world0
  = (5%Z,
     mkWorld ("error 0x5: Access is denied." +:+ endl) []
       [mkOp (Some FO_COPY) (L "a" ++ [0%Z; 0%Z]) (L "d" ++ [0%Z; 0%Z])
             0x4240%Z]).
Proof. vm_compute. reflexivity. Qed.

(** C1, counterexample: with status 0 and the aborted flag set the reporter
    prints "cancelled", not "ok"; and for the status 5, whose message the
    system formatter ends with a carriage return and a line feed, it prints
    text with two line ends, not one line. *)
Lemma reporter_not_as_stated :
  (stdout (handleStatus (host := quietHost) 0%Z true "copy" false world0).2
   = ("cancelled" +:+ endl)%string /\
   stdout (handleStatus (host := quietHost) 0%Z true "copy" false world0).2
   <> ("ok" +:+ endl)%string) /\
  (stdout (handleStatus (host := crlfHost) 5%Z false "copy" false world0).2
   = ("error 0x5: Access is denied." +:+ String "013" (String "010" "")
      +:+ endl)%string /\
   lineEnds
     (stdout (handleStatus (host := crlfHost) 5%Z false "copy" false world0).2)
   = 2).
Proof.
  split; (split; [reflexivity|]); [discriminate|reflexivity].
Qed.

(** C1, at the status 0x71 with the aborted flag clear. *)
Lemma reporter_state_machine_witness :
  false = false /\ 0x71%Z <> 0%Z /\ 0x71%Z <> ERROR_CANCELLED /\
  stdout (handleStatus (host := quietHost) 0x71%Z false "copy" false world0).2
  = ("error 0x71: The source and destination files are the same file."
     +:+ endl)%string /\
  lineEnds (getErrorAsString (host := quietHost) (to_DWORD 0x71%Z)) = 0.
Proof.
  assert (H0 : 0x71%Z <> 0%Z) by discriminate.
  assert (Hc : 0x71%Z <> ERROR_CANCELLED) by discriminate.
  split; [reflexivity|]. split; [exact H0|]. split; [exact Hc|].
  destruct (reporter_state_machine (host := quietHost) 0x71%Z false "copy"
              false world0) as (_ & _ & H & _ & Htable).
  split; [rewrite (H eq_refl H0 Hc); reflexivity|].
  exact (proj2 (Htable _ eq_refl)).
Defined.

(** C3, counterexample: a delete that the shell returns from with status 0
    and the aborted flag set is reported as cancelled and exits with 0, not
    with ERROR_CANCELLED. *)
Lemma cancelled_run_exits_with_0 :
  let argv := ["FileOps.exe"; "delete"; "--from"; "C:\a.txt"]%string in
  stdout (main (host := abortedHost) argv world0).2
  = ("cancelled" +:+ endl)%string /\
  (main (host := abortedHost) argv world0).1 = 0%Z /\
  (main (host := abortedHost) argv world0).1 <> ERROR_CANCELLED.
Proof. repeat split. discriminate. Qed.

(** C3, at a delete of one path that succeeds. *)
Lemma exit_code_witness :
  let argv := ["FileOps.exe"; "delete"; "--from"; "C:\a.txt"]%string in
  (main (host := quietHost) argv world0).1 = 0%Z /\
  stdout (main (host := quietHost) argv world0).2 = ("ok" +:+ endl)%string.
Proof.
  cbv zeta.
  pose proof (exit_code (host := quietHost)
                ["FileOps.exe"; "delete"; "--from"; "C:\a.txt"]%string world0)
    as H.
  cbv zeta in H.
  change (inputIsValid _ _ _ world0).1 with true in H.
  destruct H as (op & _ & Hexit & Hok & _).
  split; [rewrite Hexit; reflexivity|].
  rewrite (Hok eq_refl eq_refl). reflexivity.
Defined.

(** C4, counterexample: 0x12345 is absent from the table and the text
    returned for it is empty when the formatter fails. *)
Lemma error_text_empty :
  errors !! 0x12345%Z = None /\
  getErrorAsString (host := quietHost) 0x12345%Z = ""%string.
Proof. split; reflexivity. Qed.

(** C4, at the code 5, absent from the table, on a host whose formatter
    knows it. *)
Lemma error_text_lookup_witness :
  errors !! 5%Z = None /\
  getErrorAsString (host := deniedHost) 5%Z = "Access is denied."%string.
Proof.
  assert (H : errors !! 5%Z = None) by reflexivity.
  split; [exact H|].
  destruct (error_text_lookup (host := deniedHost)) as (_ & _ & Hfall).
  rewrite (Hfall 5%Z H). reflexivity.
Defined.

(** C6, counterexample: a delete of one path reaches the shell with a
    destination buffer encoded from the empty list. *)
Lemma encoder_gets_empty_list :
  let argv := ["FileOps.exe"; "delete"; "--from"; "C:\a.txt"]%string in
  destPaths (parseArgs argv) = [] /\
  map pTo (shellCalls (main (host := quietHost) argv world0).2)
  = [combileFileNames (host := quietHost) []].
Proof. split; reflexivity. Qed.

(** C8, at a failed move with the dialog enabled. *)
Lemma dialog_on_failure_witness :
  In "move"%string ["copy"; "move"; "delete"]%string /\
  dialogs (handleStatus (host := quietHost) 0x76%Z false "move" true world0).2
  = [mkBox (L "The destination is a subtree of the source." ++ [0%Z])
           (L "Unable to move files (ERR 0x76)" ++ [0%Z])
           MB_ICONWARNING].
Proof.
  assert (Hact : In "move"%string ["copy"; "move"; "delete"]%string)
    by (right; left; reflexivity).
  split; [exact Hact|].
  destruct (dialog_on_failure (host := quietHost) 0x76%Z false "move" true
              world0 Hact) as (_ & H & _).
  rewrite H; [reflexivity|].
  split; [reflexivity|]. repeat split; discriminate.
Defined.

(** C9, counterexample: for delete with a destination path the wrapper's
    validator returns and the launcher's rejects. *)
Lemma wrapper_accepts_delete_with_destination :
  Wrapper.returns
    (Wrapper.validateInput Wrapper.delete (Wrapper.Arr [L "a"])
                           (Wrapper.Arr [L "b"])) /\
  (inputIsValid "delete" ["a"%string] ["b"%string] world0).1 = false.
Proof. split; [eexists; reflexivity|reflexivity]. Qed.

(** C9, at a copy of one path to one path. *)
Lemma validators_agree_witness :
  (Wrapper.copy <> Wrapper.delete \/ [L "b"] = []) /\
  ((inputIsValid "copy" ["a"%string] ["b"%string] world0).1 = true <->
   Wrapper.returns
     (Wrapper.validateInput Wrapper.copy (Wrapper.Arr [L "a"])
                            (Wrapper.Arr [L "b"]))).
Proof.
  assert (H : Wrapper.copy <> Wrapper.delete \/ [L "b"] = [])
    by (left; discriminate).
  split; [exact H|].
  destruct (validators_agree Wrapper.copy [L "a"] [L "b"]
              (fun s => if decide (s = L "a") then "a"%string else "b"%string)
              world0) as [Hiff _].
  exact (Hiff H).
Defined.

(** C10, at the two plain paths of C5. *)
Lemma tab_is_the_separator_witness :
  plainPaths ["C:\a.txt"; "C:\b.txt"]%string /\
  decodePathList
    (combileFileNames (host := quietHost) ["C:\a.txt"; "C:\b.txt"]%string)
  = [L "C:\a.txt"; L "C:\b.txt"].
Proof.
  split; [exact plain_two_files|].
  destruct (tab_is_the_separator (host := quietHost)) as [H _].
  rewrite (H _ plain_two_files). reflexivity.
Defined.

(** * Further properties of the code *)

(** ** The argument loop *)

Lemma positional_not_switch (arg : string) :
  positional arg ->
  (arg =? "--from")%string = false /\ (arg =? "--to")%string = false /\
  (arg =? "--show-errors")%string = false.
Proof.
  unfold positional. intros H.
  repeat split;
    match goal with |- (arg =? ?s)%string = false =>
      destruct (String.eqb_spec arg s) as [->|_]; [discriminate H|reflexivity]
    end.
Qed.

Lemma parseArg_unknown (st : Locals) (flag : string) :
  String.prefix "--" flag = true ->
  ~ In flag ["--from"; "--to"; "--show-errors"]%string ->
  parseArg st flag = st.
Proof.
  intros Hp Hn. destruct st as [show act src dst cur]. unfold parseArg.
  destruct (String.eqb_spec flag "--from") as [->|_]; [elim Hn; cbn; auto|].
  destruct (String.eqb_spec flag "--to") as [->|_]; [elim Hn; cbn; auto|].
  destruct (String.eqb_spec flag "--show-errors") as [->|_];
    [elim Hn; cbn; auto|].
  now rewrite Hp.
Qed.

Lemma parseArg_from (show : bool) (act : string) (src dst : list string)
    (arg : string) :
  positional arg ->
  parseArg (mkLocals show act src dst "from") arg
  = mkLocals show act (src ++ [arg]) dst "from".
Proof.
  intros H. destruct (positional_not_switch arg H) as (H1 & H2 & H3).
  unfold parseArg. rewrite H1, H2, H3, H. reflexivity.
Qed.

Lemma parseArg_to (show : bool) (act : string) (src dst : list string)
    (arg : string) :
  positional arg ->
  parseArg (mkLocals show act src dst "to") arg
  = mkLocals show act src (dst ++ [arg]) "to".
Proof.
  intros H. destruct (positional_not_switch arg H) as (H1 & H2 & H3).
  unfold parseArg. rewrite H1, H2, H3, H. reflexivity.
Qed.

Lemma parseArg_action (show : bool) (act : string) (src dst : list string)
    (arg : string) :
  positional arg ->
  parseArg (mkLocals show act src dst "action") arg
  = mkLocals show arg src dst "action".
Proof.
  intros H. destruct (positional_not_switch arg H) as (H1 & H2 & H3).
  unfold parseArg. rewrite H1, H2, H3, H. reflexivity.
Qed.

Lemma parse_from_group (show : bool) (act : string) (src dst paths : list string) :
  Forall positional paths ->
  fold_left parseArg paths (mkLocals show act src dst "from")
  = mkLocals show act (src ++ paths) dst "from".
Proof.
  intros H. revert src.
  induction H as [|p paths Hp _ IH]; intros src; cbn [fold_left].
  - now rewrite app_nil_r.
  - rewrite parseArg_from by exact Hp. rewrite IH.
    now rewrite <- app_assoc.
Qed.

Lemma parse_to_group (show : bool) (act : string) (src dst paths : list string) :
  Forall positional paths ->
  fold_left parseArg paths (mkLocals show act src dst "to")
  = mkLocals show act src (dst ++ paths) "to".
Proof.
  intros H. revert dst.
  induction H as [|p paths Hp _ IH]; intros dst; cbn [fold_left].
  - now rewrite app_nil_r.
  - rewrite parseArg_to by exact Hp. rewrite IH.
    now rewrite <- app_assoc.
Qed.

(** X3: a switch the launcher does not know is skipped wherever it stands. *)
Theorem unknown_switch_ignored (exe : string) (before after : list string)
    (flag : string) :
  String.prefix "--" flag = true ->
  ~ In flag ["--from"; "--to"; "--show-errors"]%string ->
  parseArgs (exe :: before ++ flag :: after) = parseArgs (exe :: before ++ after).
Proof.
  intros Hp Hn. unfold parseArgs. cbn [tail].
  rewrite !fold_left_app. cbn [fold_left].
  now rewrite parseArg_unknown.
Qed.

Lemma parseArgs_command_line (exe act : string) (show : bool)
    (srcs dests : list string) :
  positional act -> Forall positional srcs -> Forall positional dests ->
  let switch := if show then ["--show-errors"%string] else [] in
  parseArgs (exe :: act :: switch ++ "--from"%string :: srcs
                 ++ "--to"%string :: dests)
  = mkLocals show act srcs dests "to" /\
  parseArgs (exe :: act :: switch ++ "--from"%string :: srcs)
  = mkLocals show act srcs [] "from".
Proof.
  intros Ha Hs Hd. cbv zeta. unfold parseArgs. cbn [tail fold_left].
  rewrite parseArg_action by exact Ha.
  assert (Hsw : fold_left parseArg (if show then ["--show-errors"%string] else [])
                  (mkLocals false act [] [] "action")
                = mkLocals show act [] [] "action").
  { destruct show; reflexivity. }
  split.
  - rewrite fold_left_app, Hsw. cbn [fold_left].
    change (parseArg (mkLocals show act [] [] "action") "--from")
      with (mkLocals show act [] [] "from").
    rewrite fold_left_app, parse_from_group by exact Hs. cbn [app fold_left].
    change (parseArg (mkLocals show act srcs [] "from") "--to")
      with (mkLocals show act srcs [] "to").
    now rewrite parse_to_group.
  - rewrite fold_left_app, Hsw. cbn [fold_left].
    change (parseArg (mkLocals show act [] [] "action") "--from")
      with (mkLocals show act [] [] "from").
    now rewrite parse_from_group.
Qed.

Lemma parseArg_keptPositional (st : Locals) (arg : string) :
  keptPositional st -> keptPositional (parseArg st arg).
Proof.
  destruct st as [show act src dst cur]. unfold keptPositional, parseArg.
  cbn [action srcPaths destPaths]. intros (Ha & Hs & Hd).
  destruct (arg =? "--from")%string; [now cbn|].
  destruct (arg =? "--to")%string; [now cbn|].
  destruct (arg =? "--show-errors")%string; [now cbn|].
  destruct (String.prefix "--" arg) eqn:Hp; [now cbn|].
  destruct (cur =? "action")%string; [now cbn|].
  destruct (cur =? "from")%string.
  { cbn. repeat split; auto. apply List.Forall_app. split; auto. }
  destruct (cur =? "to")%string; [|now cbn].
  cbn. repeat split; auto. apply List.Forall_app. split; auto.
Qed.

(** X5: whatever the command line, the action and the paths the launcher
    keeps do not begin with two dashes: such an argument is never a path. *)
Theorem dashed_arguments_dropped (argv : list string) :
  positional (action (parseArgs argv)) /\
  Forall positional (srcPaths (parseArgs argv)) /\
  Forall positional (destPaths (parseArgs argv)).
Proof.
  unfold parseArgs.
  assert (H : forall l st, keptPositional st ->
                keptPositional (fold_left parseArg l st)).
  { induction l as [|a l IH]; intros st Hst; [exact Hst|].
    cbn [fold_left]. apply IH. now apply parseArg_keptPositional. }
  apply H. repeat split; constructor.
Qed.

Lemma parseArg_show (st : Locals) (arg : string) :
  showErrorDialog (parseArg st arg)
  = showErrorDialog st || (arg =? "--show-errors")%string.
Proof.
  destruct st as [show act src dst cur]. unfold parseArg.
  destruct (String.eqb_spec arg "--from") as [->|_];
    [cbn; now rewrite orb_false_r|].
  destruct (String.eqb_spec arg "--to") as [->|_];
    [cbn; now rewrite orb_false_r|].
  destruct (arg =? "--show-errors")%string;
    [cbn; now rewrite orb_true_r|].
  rewrite orb_false_r.
  destruct (String.prefix "--" arg); [reflexivity|].
  destruct (cur =? "action")%string; [reflexivity|].
  destruct (cur =? "from")%string; [reflexivity|].
  destruct (cur =? "to")%string; reflexivity.
Qed.

Lemma parseArgs_show (argv : list string) :
  showErrorDialog (parseArgs argv) = true <->
  In "--show-errors"%string (tail argv).
Proof.
  unfold parseArgs.
  assert (H : forall l st,
            showErrorDialog (fold_left parseArg l st) = true <->
            showErrorDialog st = true \/ In "--show-errors"%string l).
  { induction l as [|a l IH]; intros st; cbn [fold_left].
    - cbn. tauto.
    - rewrite IH, parseArg_show. rewrite orb_true_iff, String.eqb_eq.
      cbn. intuition auto. }
  rewrite H. cbn. intuition discriminate.
Qed.

(** X4: the command line [<action> [--show-errors] --from <src>... --to
    <dest>...], and the one without the [--to] group, are read as written when
    no action or path begins with two dashes. *)
Theorem command_line_parsed (exe act : string) (show : bool)
    (srcs dests : list string) :
  positional act -> Forall positional srcs -> Forall positional dests ->
  let switch := if show then ["--show-errors"%string] else [] in
  parseArgs (exe :: act :: switch ++ "--from"%string :: srcs
                 ++ "--to"%string :: dests)
  = mkLocals show act srcs dests "to" /\
  parseArgs (exe :: act :: switch ++ "--from"%string :: srcs)
  = mkLocals show act srcs [] "from".
Proof. exact (parseArgs_command_line exe act show srcs dests). Qed.

(** X6: the error dialog is enabled exactly when [--show-errors] is one of
    the arguments, wherever it stands. *)
Theorem show_errors_switch (argv : list string) :
  showErrorDialog (parseArgs argv) = true <->
  In "--show-errors"%string (tail argv).
Proof. exact (parseArgs_show argv). Qed.

(** ** More on the validator *)

(** X1: the validator accepts a copy or a move exactly when there is a source
    and either one destination or as many destinations as sources, and a
    delete exactly when there is a source and no destination. *)
Theorem validator_counts (action : string) (srcPaths destPaths : list string)
    (w : World) :
  In action ["copy"; "move"; "delete"]%string ->
  ((inputIsValid action srcPaths destPaths w).1 = true <->
   1 <= length srcPaths /\
   (if decide (action = "delete"%string) then destPaths = []
    else length destPaths = 1 \/ length destPaths = length srcPaths)).
Proof.
  intros Hact. rewrite inputIsValid_rules. unfold fiveRules.
  assert (Hne : action <> ""%string).
  { destruct Hact as [<-|[<-|[<-|[]]]]; discriminate. }
  assert (Hin : action = "copy"%string \/ action = "move"%string
                \/ action = "delete"%string).
  { destruct Hact as [<-|[<-|[<-|[]]]]; auto. }
  destruct (decide (action = "delete"%string)) as [E|E].
  - split.
    + intros (_ & ? & H & _). split; [assumption|].
      now apply length_zero_iff_nil.
    + intros (? & ->). cbn [length]. repeat split; auto; lia.
  - split.
    + intros (_ & ? & ? & ? & ?). split; [assumption|]. lia.
    + intros (? & ?). repeat split; auto; lia.
Qed.

(** X2: the validator prints nothing when it accepts; when it rejects it
    prints one of its seven messages, which is one line, then the usage text;
    it shows no dialog and makes no shell call. *)
Theorem validator_effects (action : string) (srcPaths destPaths : list string)
    (w : World) :
  let r := inputIsValid action srcPaths destPaths w in
  dialogs r.2 = dialogs w /\ shellCalls r.2 = shellCalls w /\
  (if r.1 then r.2 = w
   else exists msg : string,
          In msg rejections /\ lineEnds msg = 0 /\
          stdout r.2 = stdout w +:+ msg +:+ endl +:+ usageText).
Proof.
  cbv zeta.
  destruct (inputIsValid_rejection action srcPaths destPaths w)
    as [E|(msg & Hin & E)]; rewrite E.
  - cbn. auto.
  - rewrite reject_run. cbn. repeat split. exists msg.
    split; [exact Hin|]. split; [now apply rejections_single_line|reflexivity].
Qed.

(** ** More on the run *)

Section RunFacts.

Context {host : Host}.

Lemma performFileOperation_block action srcPaths destPaths show w :
  let op := mkOp (operationOf action) (combileFileNames srcPaths)
                 (combileFileNames destPaths)
                 (if (1 <? length destPaths)%nat then 0x4241%Z else 0x4240%Z) in
  performFileOperation action srcPaths destPaths show w =
  ((shellResult op).1,
   (handleStatus (shellResult op).1 (shellResult op).2 action show
      (mkWorld (stdout w) (dialogs w) (shellCalls w ++ [op]))).2).
Proof.
  cbv zeta. unfold performFileOperation, bind, SHFileOperationW, ret, operationOf.
  cbv zeta.
  replace (if (1 <? length destPaths)%nat
           then Z.lor (Z.lor (Z.lor FOF_ALLOWUNDO FOF_NOCONFIRMMKDIR)
                         FOF_WANTNUKEWARNING) FOF_MULTIDESTFILES
           else Z.lor (Z.lor FOF_ALLOWUNDO FOF_NOCONFIRMMKDIR) FOF_WANTNUKEWARNING)
    with (if (1 <? length destPaths)%nat then 0x4241%Z else 0x4240%Z)
    by (destruct (1 <? length destPaths)%nat; reflexivity).
  match goal with |- context [handleStatus ?a ?b ?c ?d ?e] =>
    destruct (handleStatus a b c d e) as [[] w'] end.
  reflexivity.
Qed.

(** X8: in a run that passes validation the block handed to the shell has
    its operation set, to the code of the action, and the
    multiple-destinations flag is set only with as many destinations as
    sources, at least two. *)
Theorem shell_block (argv : list string) (w : World) :
  let st := parseArgs argv in
  (inputIsValid (action st) (srcPaths st) (destPaths st) w).1 = true ->
  exists op : SHFILEOPSTRUCTW,
    shellCalls (main argv w).2 = shellCalls w ++ [op] /\
    (action st = "copy"%string /\ wFunc op = Some FO_COPY \/
     action st = "move"%string /\ wFunc op = Some FO_MOVE \/
     action st = "delete"%string /\ wFunc op = Some FO_DELETE) /\
    (fFlags op = 0x4240%Z \/ fFlags op = 0x4241%Z) /\
    (flagSet (fFlags op) FOF_MULTIDESTFILES ->
     length (destPaths st) = length (srcPaths st) /\ 2 <= length (srcPaths st)).
Proof.
  cbv zeta. intros Hv. rewrite (main_accepted argv w Hv).
  rewrite performFileOperation_block. cbv zeta. eexists. split.
  { cbn [snd]. rewrite handleStatus_shellCalls. reflexivity. }
  cbn [wFunc fFlags].
  apply inputIsValid_rules in Hv.
  destruct Hv as ((_ & Hact) & Hsrc & _ & Hle & Heq).
  split; [|split].
  - unfold operationOf.
    destruct Hact as [H|[H|H]]; rewrite H; cbn; auto.
  - destruct (1 <? length _)%nat; auto.
  - destruct (Nat.ltb_spec 1 (length (destPaths (parseArgs argv)))) as [H|H].
    + intros _. assert (1 < length (srcPaths (parseArgs argv))) by lia.
      split; [symmetry; auto|lia].
    + intros Hf. vm_compute in Hf. discriminate Hf.
Qed.

(** X7: a run shows at most one dialog, and shows one only if
    [--show-errors] is among the arguments, validation passed and the exit
    code is neither 0 nor ERROR_CANCELLED. *)
Theorem run_dialogs (argv : list string) (w : World) :
  let st := parseArgs argv in
  let run := main argv w in
  (dialogs run.2 = dialogs w \/ exists box, dialogs run.2 = dialogs w ++ [box]) /\
  (dialogs run.2 <> dialogs w ->
   In "--show-errors"%string (tail argv) /\
   (inputIsValid (action st) (srcPaths st) (destPaths st) w).1 = true /\
   run.1 <> 0%Z /\ run.1 <> ERROR_CANCELLED).
Proof.
  cbv zeta.
  destruct (inputIsValid _ _ _ w).1 eqn:Hv.
  - rewrite (main_accepted argv w Hv), performFileOperation_block. cbv zeta.
    cbn [fst snd].
    rewrite handleStatus_dialogs by (eapply inputIsValid_action; exact Hv).
    cbn [dialogs].
    match goal with |- context [if ?c then _ else _] => destruct c eqn:Hc end.
    + split; [right; eexists; reflexivity|]. intros _.
      apply andb_prop in Hc as [Hc H2]. apply andb_prop in Hc as [Hc H1].
      apply andb_prop in Hc as [Hs _].
      apply negb_true_iff, Z.eqb_neq in H1, H2.
      repeat split; auto. now apply parseArgs_show.
    + rewrite app_nil_r. split; [now left|]. intros H. now elim H.
  - destruct (main_rejected argv w Hv) as [msg ->]. cbn.
    split; [now left|]. intros H. now elim H.
Qed.

(** X9: a run that passes validation prints exactly one report: the line
    "cancelled", the line "ok", or the error text with its line end, by the
    status the shell returned and its aborted flag; no usage text. *)
Theorem run_report (argv : list string) (w : World) :
  let st := parseArgs argv in
  (inputIsValid (action st) (srcPaths st) (destPaths st) w).1 = true ->
  exists op : SHFILEOPSTRUCTW,
    shellCalls (main argv w).2 = shellCalls w ++ [op] /\
    stdout (main argv w).2 =
    stdout w +:+
    (if (shellResult op).2 || ((shellResult op).1 =? ERROR_CANCELLED)%Z
     then "cancelled" +:+ endl
     else if ((shellResult op).1 =? 0)%Z then "ok" +:+ endl
     else "error 0x" +:+ hex (shellResult op).1 +:+ ": "
          +:+ getErrorAsString (to_DWORD (shellResult op).1) +:+ endl).
Proof.
  cbv zeta. intros Hv. rewrite (main_accepted argv w Hv).
  rewrite performFileOperation_block. cbv zeta. eexists. split.
  { cbn [snd]. rewrite handleStatus_shellCalls. reflexivity. }
  cbn [snd].
  match goal with |- context [shellResult ?o] => set (r := shellResult o) end.
  destruct (outcome_cases r.1 r.2) as [H|[[H H0]|H]].
  - rewrite handleStatus_cancelled by exact H. cbn [stdout].
    destruct H as [->| ->]; [reflexivity|].
    rewrite Z.eqb_refl, orb_true_r. reflexivity.
  - rewrite H0, H. rewrite handleStatus_ok by reflexivity. reflexivity.
  - rewrite handleStatus_failed by exact H. cbn [stdout].
    destruct H as (-> & H0%Z.eqb_neq & Hc%Z.eqb_neq).
    rewrite H0, Hc. reflexivity.
Qed.

(** X10: for such a command line the launcher, when the validator accepts
    the action and the two lists, calls the shell once, with the operation of
    the action and with the encodings of the two lists in the order given, and
    exits with the status returned; when the validator rejects them it exits
    with 1 without calling the shell. *)
Theorem command_line_run (exe act : string) (show : bool)
    (srcs dests : list string) (w : World) :
  positional act -> Forall positional srcs -> Forall positional dests ->
  let argv := exe :: act :: (if show then ["--show-errors"%string] else [])
                  ++ "--from"%string :: srcs ++ "--to"%string :: dests in
  let run := main argv w in
  if (inputIsValid act srcs dests w).1
  then exists op : SHFILEOPSTRUCTW,
         shellCalls run.2 = shellCalls w ++ [op] /\
         wFunc op = operationOf act /\
         pFrom op = combileFileNames srcs /\
         pTo op = combileFileNames dests /\
         run.1 = (shellResult op).1
  else run.1 = 1%Z /\ shellCalls run.2 = shellCalls w.
Proof.
  intros Ha Hs Hd. cbv zeta.
  match goal with |- context [main ?a w] => set (argv := a) end.
  assert (Hp : parseArgs argv = mkLocals show act srcs dests "to")
    by now apply parseArgs_command_line.
  destruct (inputIsValid act srcs dests w).1 eqn:Hv.
  - assert (Hv' : (inputIsValid (action (parseArgs argv))
                     (srcPaths (parseArgs argv)) (destPaths (parseArgs argv))
                     w).1 = true) by (rewrite Hp; exact Hv).
    rewrite (main_accepted argv w Hv'), Hp.
    cbn [action srcPaths destPaths showErrorDialog].
    rewrite performFileOperation_block. cbv zeta. eexists.
    split; [cbn [snd]; rewrite handleStatus_shellCalls; reflexivity|].
    repeat split.
  - assert (Hv' : (inputIsValid (action (parseArgs argv))
                     (srcPaths (parseArgs argv)) (destPaths (parseArgs argv))
                     w).1 = false) by (rewrite Hp; exact Hv).
    destruct (main_rejected argv w Hv') as [msg ->]. cbn. auto.
Qed.

End RunFacts.

(** ** More on the encoder *)

Section EncoderExtras.

Context {host : Host}.

Lemma tabFields_cons (s : string) : exists f fs, tabFields s = f :: fs.
Proof.
  induction s as [|c s (f & fs & IH)]; cbn; [eauto|].
  destruct (Ascii.eqb c TAB); [eauto|]. rewrite IH. eauto.
Qed.

Lemma tabFields_joined (s rest : string) :
  fold_right (fun file r => file +:+ String TAB r) rest (tabFields s)
  = s +:+ String TAB rest.
Proof.
  induction s as [|c s IH]; [reflexivity|].
  cbn [tabFields]. destruct (Ascii.eqb_spec c TAB) as [->|_].
  - cbn [fold_right]. rewrite IH. reflexivity.
  - destruct (tabFields_cons s) as (f & fs & E). rewrite E in *.
    cbn [fold_right] in *. rewrite !append_cons. now rewrite IH.
Qed.

Lemma tabFields_plain (s : string) :
  ~ occurs NUL s -> plainPaths (tabFields s).
Proof.
  unfold plainPaths, occurs. induction s as [|c s IH]; intros Hn.
  - constructor; [|constructor]. cbn. tauto.
  - assert (Hs : ~ In NUL (list_ascii_of_string s)).
    { intros H. apply Hn. now right. }
    assert (Hc : c <> NUL).
    { intros ->. apply Hn. now left. }
    specialize (IH Hs). cbn [tabFields].
    destruct (Ascii.eqb_spec c TAB) as [->|Ht].
    + constructor; [cbn; tauto|exact IH].
    + destruct (tabFields_cons s) as (f & fs & E). rewrite E in *.
      inversion IH as [|? ? [Hf1 Hf2] Hfs]; subst.
      constructor; [|exact Hfs]. cbn. split; intros [H|H]; auto.
Qed.

Lemma combined_fields (files : list string) :
  fold_right (fun file r => file +:+ String TAB r) ""%string
             (flat_map tabFields files)
  = fold_right (fun file r => file +:+ String TAB r) ""%string files.
Proof.
  induction files as [|file files IH]; [reflexivity|].
  cbn [flat_map fold_right]. rewrite fold_right_app, IH.
  apply tabFields_joined.
Qed.

Lemma combileFileNames_fields (files : list string) :
  combileFileNames files = combileFileNames (flat_map tabFields files).
Proof.
  unfold combileFileNames. rewrite !combined_fold. now rewrite combined_fields.
Qed.

(** X12: for paths without NUL, the entries decoded from the buffer are the
    fields of the paths between their tabs, in order: a path with n tabs
    gives n + 1 entries. *)
Theorem tab_fields_decoded (files : list string) :
  Forall (fun file => ~ occurs NUL file) files ->
  decodePathList (combileFileNames files)
  = map utf8ToWide (flat_map tabFields files).
Proof.
  intros Hn. rewrite combileFileNames_fields. apply roundtrip_plain.
  unfold plainPaths. induction Hn as [|file files Hf _ IH]; [constructor|].
  cbn [flat_map]. apply List.Forall_app. split; [|exact IH].
  now apply tabFields_plain.
Qed.

(** X11: for paths without tab and NUL the buffer is each converted path
    followed by one NUL, then one more NUL; so it ends with two NULs unless
    the list is empty, in which case it is a single NUL. *)
Theorem encoder_layout (files : list string) :
  plainPaths files ->
  combileFileNames files
  = concat (map (fun file => utf8ToWide file ++ [0%Z]) files) ++ [0%Z] /\
  (files <> [] ->
   exists front, combileFileNames files = front ++ [0%Z; 0%Z]) /\
  (files = [] -> combileFileNames files = [0%Z]).
Proof.
  intros Hp. rewrite (combileFileNames_plain files Hp). unfold joined.
  rewrite map_map. split; [reflexivity|]. split.
  - intros Hne. destruct (exists_last Hne) as (front & file & ->).
    rewrite map_app, concat_app. cbn [map concat]. rewrite app_nil_r.
    exists (concat (map (fun x => utf8ToWide x ++ [0%Z]) front) ++ utf8ToWide file).
    now rewrite <- !app_assoc.
  - intros ->. reflexivity.
Qed.

Lemma L_inj (a b : string) : L a = L b -> a = b.
Proof.
  unfold L. intros H.
  rewrite <- (string_of_list_ascii_of_string a),
          <- (string_of_list_ascii_of_string b).
  f_equal. revert H.
  generalize (list_ascii_of_string a) (list_ascii_of_string b).
  induction l as [|x l IH]; intros [|y l']; cbn; intros H;
    try discriminate; [reflexivity|].
  injection H as Hxy Hl. f_equal; [now apply Utf8Facts.widen_inj|now apply IH].
Qed.

(** X13: two lists of 7-bit paths without tab and NUL that are encoded to the
    same buffer are the same list. *)
Theorem encoder_injective (files1 files2 : list string) :
  plainPaths files1 -> plainPaths files2 ->
  Forall asciiText files1 -> Forall asciiText files2 ->
  combileFileNames files1 = combileFileNames files2 ->
  files1 = files2.
Proof.
  intros Hp1 Hp2 Ha1 Ha2 E.
  apply (f_equal decodePathList) in E.
  rewrite !roundtrip_plain in E by assumption.
  assert (HL : forall files, Forall asciiText files ->
                 map utf8ToWide files = map L files).
  { induction 1 as [|f fs Hf _ IH]; [reflexivity|].
    cbn. rewrite IH. f_equal. now apply utf8ToWide_ascii7. }
  rewrite !HL in E by assumption. clear -E.
  revert files2 E. induction files1 as [|f fs IH]; intros [|g gs] E;
    try discriminate; [reflexivity|].
  injection E as Hfg Hrest. f_equal; [now apply L_inj|now apply IH].
Qed.

(** ** More on stringToLpwstr *)

Lemma c_str_no_nul (s : string) : ~ occurs NUL (c_str s).
Proof.
  unfold occurs. induction s as [|c s IH]; cbn; [tauto|].
  destruct (Ascii.eqb_spec c NUL) as [->|Hc]; cbn; [tauto|].
  intros [H|H]; [now apply Hc|now apply IH].
Qed.

Lemma c_str_app_nul (a b : string) : c_str (a +:+ String NUL b) = c_str a.
Proof.
  induction a as [|c a IH]; [reflexivity|].
  rewrite append_cons. cbn. destruct (Ascii.eqb c NUL); [reflexivity|].
  now rewrite IH.
Qed.

(** X14: the buffer of [stringToLpwstr] is a wide C string: code units other
    than NUL followed by one NUL, so that its [wcslen] is its length less
    one. *)
Theorem lpwstr_terminated (str : string) :
  exists text : list wchar_t,
    stringToLpwstr str = text ++ [0%Z] /\
    Forall (fun w => w <> 0%Z) text /\
    wcslen (stringToLpwstr str) = length text.
Proof.
  exists (utf8ToWide (c_str str)).
  assert (Hn : Forall (fun w => w <> 0%Z) (utf8ToWide (c_str str))).
  { apply List.Forall_forall. intros w Hw ->.
    apply (c_str_no_nul str).
    apply utf8_ascii7_only; [exact isAscii7_NUL|exact Hw]. }
  unfold stringToLpwstr, MultiByteToWideChar. rewrite firstn_all.
  split; [reflexivity|]. split; [exact Hn|].
  now apply wcslen_terminated.
Qed.

(** X15: [stringToLpwstr] converts a text up to its first NUL only, and a
    text of 7-bit characters without NUL to the same characters. *)
Theorem lpwstr_cut_and_ascii (a b : string) :
  stringToLpwstr (a +:+ String NUL b) = stringToLpwstr a /\
  (asciiText a -> ~ occurs NUL a -> stringToLpwstr a = L a ++ [0%Z]).
Proof.
  unfold stringToLpwstr, MultiByteToWideChar. rewrite !firstn_all.
  split; [now rewrite c_str_app_nul|].
  intros Ha Hn. rewrite c_str_plain by exact Hn.
  now rewrite utf8ToWide_ascii7.
Qed.

(** ** More on the error text *)

(** X16: the hexadecimal code printed for a status reads back as the
    unsigned 32-bit value of the status. *)
Theorem hex_reads_back (x : int) :
  Z.of_N (HexString.to_N ("0x" +:+ hex x)) = to_DWORD x.
Proof.
  unfold hex, to_DWORD.
  pose proof (Z.mod_pos_bound x (2 ^ 32) ltac:(lia)) as Hb.
  destruct (x mod 2 ^ 32)%Z as [|p|p] eqn:E; [reflexivity| |lia].
  change (HexString.to_N ("0x" +:+ HexString.Raw.of_pos p ""))
    with (HexString.Raw.to_N (HexString.Raw.of_pos p "") 0%N).
  now rewrite HexString.Raw.to_N_of_pos.
Qed.

(** X17: for a code of the table the text is the one of the table, whatever
    the system formatter answers, and it is not empty. *)
Theorem table_overrides_formatter (host' : Host) (errorCode : DWORD)
    (message : string) :
  errors !! errorCode = Some message ->
  getErrorAsString (host := host) errorCode = message /\
  getErrorAsString (host := host') errorCode = message /\
  message <> ""%string.
Proof.
  intros H. unfold getErrorAsString. rewrite H.
  split; [reflexivity|]. split; [reflexivity|].
  unfold errors in H. cbn [fold_left fst snd] in H.
  repeat (apply lookup_insert_Some in H as [[_ <-]|[_ H]]; [discriminate|]).
  rewrite lookup_empty in H. discriminate H.
Qed.

End EncoderExtras.

(** ** More on the wrapper *)

Lemma validateInput_lengths (a : Wrapper.Action) (src dest : Wrapper.Paths) :
  (exists error, Wrapper.validateInput a src dest = inl error /\
     ~ (1 <= length (pathsOf src) /\
        (a <> Wrapper.delete -> 1 <= length (pathsOf dest)) /\
        length (pathsOf dest) <= length (pathsOf src) /\
        (1 < length (pathsOf src) -> 1 < length (pathsOf dest) ->
         length (pathsOf src) = length (pathsOf dest)))) \/
  (Wrapper.validateInput a src dest = inr (pathsOf src, pathsOf dest) /\
   1 <= length (pathsOf src) /\
   (a <> Wrapper.delete -> 1 <= length (pathsOf dest)) /\
   length (pathsOf dest) <= length (pathsOf src) /\
   (1 < length (pathsOf src) -> 1 < length (pathsOf dest) ->
    length (pathsOf src) = length (pathsOf dest))).
Proof.
  unfold Wrapper.validateInput. fold (pathsOf src). fold (pathsOf dest).
  generalize (pathsOf src) (pathsOf dest). intros s d.
  destruct (Nat.eqb_spec (length s) 0) as [Hs|Hs].
  { left. eexists. split; [reflexivity|]. lia. }
  destruct a; cbn [andb];
    size_cases;
    try (left; eexists; split; [reflexivity|];
         intros (? & Hdest & ? & ?);
         try specialize (Hdest ltac:(discriminate)); lia);
    right; (split; [reflexivity|]); repeat split; auto; try lia;
    intros Hdel; try lia; now elim Hdel.
Qed.

(** X18: [validateInput] sees an argument only through its paths: a nullish
    value, a blank string and an empty array are no path, and a string is
    the one path it trims to.  When it returns, it returns these paths, with
    a source, with a destination unless the action is delete, and with one
    destination or as many as sources when there is any. *)
Theorem wrapper_paths (a : Wrapper.Action) (src dest : Wrapper.Paths)
    (s : Wrapper.jsstring) :
  pathsOf Wrapper.Nullish = [] /\ pathsOf (Wrapper.Arr []) = [] /\
  pathsOf (Wrapper.Str s)
  = (if decide (Wrapper.trim s = []) then [] else [Wrapper.trim s]) /\
  Wrapper.validateInput a src dest
  = Wrapper.validateInput a (Wrapper.Arr (pathsOf src)) (Wrapper.Arr (pathsOf dest)) /\
  (forall srcPaths destPaths,
     Wrapper.validateInput a src dest = inr (srcPaths, destPaths) ->
     srcPaths = pathsOf src /\ destPaths = pathsOf dest /\
     1 <= length srcPaths /\
     (length destPaths = 0 /\ a = Wrapper.delete \/
      length destPaths = 1 \/ length destPaths = length srcPaths)).
Proof.
  split; [reflexivity|]. split; [reflexivity|]. split; [|split].
  - unfold pathsOf. cbn. destruct (decide _) as [E|E].
    + now rewrite E.
    + destruct (Wrapper.trim s); [now elim E|reflexivity].
  - assert (Hp : forall l, pathsOf (Wrapper.Arr l) = l).
    { intros l. unfold pathsOf. cbn. now destruct l. }
    unfold Wrapper.validateInput at 1 2.
    fold (pathsOf src) (pathsOf dest)
         (pathsOf (Wrapper.Arr (pathsOf src)))
         (pathsOf (Wrapper.Arr (pathsOf dest))).
    now rewrite !Hp.
  - intros srcPaths destPaths H.
    destruct (validateInput_lengths a src dest)
      as [(e & E & _)|(E & H1 & H2 & H3 & H4)];
      rewrite E in H; [discriminate|].
    injection H as <- <-. repeat split; auto.
    assert (Hcase : a = Wrapper.delete \/ a <> Wrapper.delete)
      by (destruct a; auto; right; discriminate).
    destruct Hcase as [Ha|Ha].
    + destruct (Nat.eq_dec (length (pathsOf dest)) 0); [left; auto|lia].
    + specialize (H2 Ha). lia.
Qed.

Section WrapperFacts.

Variable exe : Wrapper.jsstring.
Variable commandsAsScript : Wrapper.jsstring -> string + option Z.

(** X19: [copy] and [move] run one command, and settle with what it settles
    with, exactly when there is a source path and either one destination
    path or as many as source paths; otherwise they reject and run
    nothing. *)
Theorem copy_move_launch (src dest : Wrapper.Paths)
    (options : option WrapperApi.FileOpOptions) :
  let accepted :=
    1 <= length (pathsOf src) /\
    (length (pathsOf dest) = 1 \/
     length (pathsOf dest) = length (pathsOf src)) in
  (accepted ->
   (exists command,
      WrapperApi.copy exe commandsAsScript src dest options
      = WrapperApi.mkSettled (commandsAsScript command) [command]) /\
   (exists command,
      WrapperApi.move exe commandsAsScript src dest options
      = WrapperApi.mkSettled (commandsAsScript command) [command])) /\
  (~ accepted ->
   (exists error, WrapperApi.copy exe commandsAsScript src dest options = WrapperApi.mkSettled (inl error) []) /\
   (exists error, WrapperApi.move exe commandsAsScript src dest options = WrapperApi.mkSettled (inl error) [])).
Proof.
  cbv zeta. unfold WrapperApi.copy, WrapperApi.move, WrapperApi.startProcess.
  destruct (validateInput_lengths Wrapper.copy src dest)
    as [(e1 & E1 & N1)|(E1 & H1)];
  destruct (validateInput_lengths Wrapper.move src dest)
    as [(e2 & E2 & N2)|(E2 & H2)];
  rewrite E1, E2; split; intros Hacc.
  - elim N1. destruct Hacc as [? ?]. repeat split; auto; lia.
  - split; eexists; reflexivity.
  - elim N1. destruct Hacc as [? ?]. repeat split; auto; lia.
  - elim Hacc. destruct H2 as (? & Hd & ? & ?).
    specialize (Hd ltac:(discriminate)). split; [assumption|lia].
  - elim N2. destruct Hacc as [? ?]. repeat split; auto; lia.
  - elim Hacc. destruct H1 as (? & Hd & ? & ?).
    specialize (Hd ltac:(discriminate)). split; [assumption|lia].
  - split; eexists; reflexivity.
  - elim Hacc. destruct H1 as (? & Hd & ? & ?).
    specialize (Hd ltac:(discriminate)). split; [assumption|lia].
Qed.

(** X20: [del] rejects, with the error of the missing source and without
    running anything, exactly when its argument holds no path; otherwise it
    runs one command and settles with what the command settles with. *)
Theorem del_launch (src : Wrapper.Paths)
    (options : option WrapperApi.FileOpOptions) :
  (pathsOf src = [] ->
   WrapperApi.del exe commandsAsScript src options
   = WrapperApi.mkSettled (inl "at least one source path is required"%string) []) /\
  (pathsOf src <> [] ->
   exists command,
     WrapperApi.del exe commandsAsScript src options
     = WrapperApi.mkSettled (commandsAsScript command) [command]).
Proof.
  unfold WrapperApi.del, WrapperApi.startProcess, Wrapper.validateInput.
  fold (pathsOf src). change (Wrapper.toPaths _) with (@nil Wrapper.jsstring) at 1.
  cbn [length andb]. split.
  - intros ->. reflexivity.
  - intros Hne. destruct (pathsOf src) as [|p ps]; [now elim Hne|].
    cbn [length Nat.eqb Nat.ltb Nat.leb andb negb].
    destruct ps; eexists; reflexivity.
Qed.

(** X21: what the wrapper launches, the launcher's validator accepts: when
    [copy], [move] or [del] runs its command, the action with the source and
    destination paths put on the command line passes [inputIsValid]. *)
Theorem launched_is_accepted (src dest : Wrapper.Paths)
    (options : option WrapperApi.FileOpOptions)
    (enc : Wrapper.jsstring -> string) (w : World) :
  (WrapperApi.commands (WrapperApi.copy exe commandsAsScript src dest options) <> [] ->
   (inputIsValid "copy" (map enc (pathsOf src)) (map enc (pathsOf dest)) w).1
   = true) /\
  (WrapperApi.commands (WrapperApi.move exe commandsAsScript src dest options) <> [] ->
   (inputIsValid "move" (map enc (pathsOf src)) (map enc (pathsOf dest)) w).1
   = true) /\
  (WrapperApi.commands (WrapperApi.del exe commandsAsScript src options) <> [] ->
   (inputIsValid "delete" (map enc (pathsOf src)) [] w).1 = true).
Proof.
  split; [|split].
  - unfold WrapperApi.copy.
    destruct (validateInput_lengths Wrapper.copy src dest)
      as [(e & E & _)|(E & ? & Hd & ? & ?)]; rewrite E; [intros H; now elim H|].
    intros _. specialize (Hd ltac:(discriminate)).
    apply inputIsValid_rules. unfold fiveRules. rewrite !length_map.
    destruct (decide _) as [D|_]; [discriminate D|].
    repeat split; auto; discriminate.
  - unfold WrapperApi.move.
    destruct (validateInput_lengths Wrapper.move src dest)
      as [(e & E & _)|(E & ? & Hd & ? & ?)]; rewrite E; [intros H; now elim H|].
    intros _. specialize (Hd ltac:(discriminate)).
    apply inputIsValid_rules. unfold fiveRules. rewrite !length_map.
    destruct (decide _) as [D|_]; [discriminate D|].
    repeat split; auto; discriminate.
  - unfold WrapperApi.del.
    destruct (validateInput_lengths Wrapper.delete src (Wrapper.Arr []))
      as [(e & E & _)|(E & ? & _)]; rewrite E; [intros H; now elim H|].
    intros _.
    apply inputIsValid_rules. unfold fiveRules. rewrite !length_map.
    destruct (decide _) as [_|D]; [|now elim D].
    cbn [length]. repeat split; auto; try lia; discriminate.
Qed.

End WrapperFacts.

(** ** Concrete runs of the further properties *)

(** A PowerShell that runs every command to the exit code 0. *)
Definition runsFine (command : Wrapper.jsstring) : string + option Z :=
  inr (Some 0%Z).

Lemma positional_copy : positional "copy".
Proof. reflexivity. Qed.

Lemma positional_a_b : Forall positional ["a"; "b"]%string.
Proof. repeat constructor. Qed.

Lemma positional_d : Forall positional ["d"%string].
Proof. repeat constructor. Qed.

(** X1, at a copy of two paths to one. *)
Lemma validator_counts_witness :
  In "copy"%string ["copy"; "move"; "delete"]%string /\
  (inputIsValid "copy" ["a"; "b"]%string ["d"%string] world0).1 = true.
Proof.
  assert (Hin : In "copy"%string ["copy"; "move"; "delete"]%string)
    by (left; reflexivity).
  split; [exact Hin|].
  apply (validator_counts "copy" ["a"; "b"]%string ["d"%string] world0 Hin).
  split; [cbn; lia|]. left. reflexivity.
Defined.

(** X3, at a switch [--quiet] between the paths. *)
Lemma unknown_switch_ignored_witness :
  String.prefix "--" "--quiet" = true /\
  ~ In "--quiet"%string ["--from"; "--to"; "--show-errors"]%string /\
  parseArgs ["FileOps.exe"; "copy"; "--from"; "a"; "--quiet"; "b"; "--to"; "d"]%string
  = parseArgs ["FileOps.exe"; "copy"; "--from"; "a"; "b"; "--to"; "d"]%string.
Proof.
  assert (Hn : ~ In "--quiet"%string ["--from"; "--to"; "--show-errors"]%string)
    by (intros [H|[H|[H|[]]]]; discriminate H).
  split; [reflexivity|]. split; [exact Hn|].
  exact (unknown_switch_ignored "FileOps.exe" ["copy"; "--from"; "a"]%string
           ["b"; "--to"; "d"]%string "--quiet" eq_refl Hn).
Defined.

(** X4, at a copy of two paths to one with the dialog enabled. *)
Lemma command_line_parsed_witness :
  positional "copy" /\ Forall positional ["a"; "b"]%string /\
  Forall positional ["d"%string] /\
  parseArgs ["FileOps.exe"; "copy"; "--show-errors"; "--from"; "a"; "b";
             "--to"; "d"]%string
  = mkLocals true "copy" ["a"; "b"]%string ["d"%string] "to".
Proof.
  split; [exact positional_copy|]. split; [exact positional_a_b|].
  split; [exact positional_d|].
  exact (proj1 (command_line_parsed "FileOps.exe" "copy" true
                  ["a"; "b"]%string ["d"%string]
                  positional_copy positional_a_b positional_d)).
Defined.

(** X7, at a copy that fails with code 5 and [--show-errors] given. *)
Lemma run_dialogs_witness :
  let argv := ["FileOps.exe"; "copy"; "--show-errors"; "--from"; "a";
               "--to"; "d"]%string in
  dialogs (main (host := deniedHost) argv world0).2 <> dialogs world0 /\
  In "--show-errors"%string (tail argv) /\
  (main (host := deniedHost) argv world0).1 <> 0%Z.
Proof.
  cbv zeta.
  set (argv := ["FileOps.exe"; "copy"; "--show-errors"; "--from"; "a";
                "--to"; "d"]%string).
  assert (Hne : dialogs (main (host := deniedHost) argv world0).2
                <> dialogs world0).
  { intros H. apply (f_equal (@length _)) in H. lazy in H. discriminate H. }
  split; [exact Hne|].
  destruct (run_dialogs (host := deniedHost) argv world0) as [_ H].
  destruct (H Hne) as (Hs & _ & H0 & _). split; [exact Hs|exact H0].
Defined.

(** X8, at a move of two paths to two. *)
Lemma shell_block_witness :
  let argv := ["FileOps.exe"; "move"; "--from"; "a"; "b"; "--to"; "c"; "d"]%string in
  (inputIsValid (action (parseArgs argv)) (srcPaths (parseArgs argv))
                (destPaths (parseArgs argv)) world0).1 = true /\
  exists op : SHFILEOPSTRUCTW,
    shellCalls (main (host := quietHost) argv world0).2 = [op] /\
    wFunc op = Some FO_MOVE /\ fFlags op = 0x4241%Z.
Proof.
  cbv zeta.
  set (argv := ["FileOps.exe"; "move"; "--from"; "a"; "b"; "--to"; "c"; "d"]%string).
  assert (Hv : (inputIsValid (action (parseArgs argv)) (srcPaths (parseArgs argv))
                  (destPaths (parseArgs argv)) world0).1 = true) by reflexivity.
  split; [exact Hv|].
  destruct (shell_block (host := quietHost) argv world0 Hv)
    as (op & Hcalls & _).
  exists op. split; [exact Hcalls|].
  vm_compute in Hcalls. injection Hcalls as <-. split; reflexivity.
Defined.

(** X9, at a delete of one path that succeeds. *)
Lemma run_report_witness :
  let argv := ["FileOps.exe"; "delete"; "--from"; "a"]%string in
  (inputIsValid (action (parseArgs argv)) (srcPaths (parseArgs argv))
                (destPaths (parseArgs argv)) world0).1 = true /\
  stdout (main (host := quietHost) argv world0).2 = ("ok" +:+ endl)%string.
Proof.
  cbv zeta.
  set (argv := ["FileOps.exe"; "delete"; "--from"; "a"]%string).
  assert (Hv : (inputIsValid (action (parseArgs argv)) (srcPaths (parseArgs argv))
                  (destPaths (parseArgs argv)) world0).1 = true) by reflexivity.
  split; [exact Hv|].
  destruct (run_report (host := quietHost) argv world0 Hv) as (op & _ & H).
  rewrite H. reflexivity.
Defined.

(** X10, at a copy of two paths to one. *)
Lemma command_line_run_witness :
  positional "copy" /\ Forall positional ["a"; "b"]%string /\
  Forall positional ["d"%string] /\
  exists op : SHFILEOPSTRUCTW,
    shellCalls (main (host := quietHost)
                  ["FileOps.exe"; "copy"; "--from"; "a"; "b"; "--to"; "d"]%string
                  world0).2 = [op] /\
    pFrom op = combileFileNames (host := quietHost) ["a"; "b"]%string /\
    pTo op = combileFileNames (host := quietHost) ["d"%string].
Proof.
  split; [exact positional_copy|]. split; [exact positional_a_b|].
  split; [exact positional_d|].
  pose proof (command_line_run (host := quietHost) "FileOps.exe" "copy" false
                ["a"; "b"]%string ["d"%string] world0
                positional_copy positional_a_b positional_d) as H.
  cbv zeta in H.
  change (inputIsValid "copy" ["a"; "b"]%string ["d"%string] world0).1
    with true in H.
  destruct H as (op & Hcalls & _ & Hfrom & Hto & _).
  exists op. split; [exact Hcalls|]. split; [exact Hfrom|exact Hto].
Defined.

(** X11, at the two paths of C5. *)
Lemma encoder_layout_witness :
  plainPaths ["C:\a.txt"; "C:\b.txt"]%string /\
  combileFileNames (host := quietHost) ["C:\a.txt"; "C:\b.txt"]%string
  = L "C:\a.txt" ++ [0%Z] ++ L "C:\b.txt" ++ [0%Z; 0%Z].
Proof.
  split; [exact plain_two_files|].
  destruct (encoder_layout (host := quietHost) _ plain_two_files) as [H _].
  rewrite H. reflexivity.
Defined.

Lemma no_nul_tabbed :
  Forall (fun file => ~ occurs NUL file)
         [("a" +:+ String TAB "b")%string; "c"%string].
Proof.
  repeat constructor; unfold occurs; vm_compute; intuition discriminate.
Qed.

(** X12, at a path with a tab and a path without. *)
Lemma tab_fields_decoded_witness :
  Forall (fun file => ~ occurs NUL file)
         [("a" +:+ String TAB "b")%string; "c"%string] /\
  decodePathList
    (combileFileNames (host := quietHost)
       [("a" +:+ String TAB "b")%string; "c"%string])
  = [L "a"; L "b"; L "c"].
Proof.
  split; [exact no_nul_tabbed|].
  rewrite (tab_fields_decoded (host := quietHost) _ no_nul_tabbed).
  reflexivity.
Defined.

Lemma plain_a : plainPaths ["a"%string].
Proof. repeat constructor; unfold occurs; cbn; intuition discriminate. Qed.

Lemma ascii_a : Forall asciiText ["a"%string].
Proof. repeat constructor. Qed.

(** X13, at the list of the one path a. *)
Lemma encoder_injective_witness :
  plainPaths ["a"%string] /\ Forall asciiText ["a"%string] /\
  ["a"%string] = ["a"%string].
Proof.
  split; [exact plain_a|]. split; [exact ascii_a|].
  exact (encoder_injective (host := quietHost) ["a"%string] ["a"%string]
           plain_a plain_a ascii_a ascii_a eq_refl).
Defined.

(** X15, at the text ab. *)
Lemma lpwstr_cut_and_ascii_witness :
  asciiText "ab" /\ ~ occurs NUL "ab" /\
  stringToLpwstr (host := quietHost) "ab" = L "ab" ++ [0%Z].
Proof.
  assert (Ha : asciiText "ab") by (repeat constructor).
  assert (Hn : ~ occurs NUL "ab")
    by (unfold occurs; cbn; intuition discriminate).
  split; [exact Ha|]. split; [exact Hn|].
  exact (proj2 (lpwstr_cut_and_ascii (host := quietHost) "ab" "") Ha Hn).
Defined.

(** X17, at the code 0x76 on two hosts. *)
Lemma table_overrides_formatter_witness :
  errors !! 0x76%Z = Some "The destination is a subtree of the source."%string /\
  getErrorAsString (host := quietHost) 0x76%Z
  = getErrorAsString (host := deniedHost) 0x76%Z.
Proof.
  assert (H : errors !! 0x76%Z
              = Some "The destination is a subtree of the source."%string)
    by reflexivity.
  split; [exact H|].
  destruct (table_overrides_formatter (host := quietHost) deniedHost _ _ H)
    as (H1 & H2 & _).
  now rewrite H1, H2.
Defined.

(** X18, at a copy of the string " a " to the string "d". *)
Lemma wrapper_paths_witness :
  Wrapper.validateInput Wrapper.copy (Wrapper.Str (L " a ")) (Wrapper.Str (L "d"))
  = inr ([L "a"], [L "d"]) /\
  [L "a"] = pathsOf (Wrapper.Str (L " a ")) /\
  [L "d"] = pathsOf (Wrapper.Str (L "d")).
Proof.
  assert (H : Wrapper.validateInput Wrapper.copy (Wrapper.Str (L " a "))
                (Wrapper.Str (L "d")) = inr ([L "a"], [L "d"])) by reflexivity.
  split; [exact H|].
  destruct (wrapper_paths Wrapper.copy (Wrapper.Str (L " a "))
              (Wrapper.Str (L "d")) []) as (_ & _ & _ & _ & Hret).
  destruct (Hret _ _ H) as (Hs & Hd & _). split; [exact Hs|exact Hd].
Defined.

(** X19, at a copy of two paths to one directory. *)
Lemma copy_move_launch_witness :
  exists command,
    WrapperApi.copy (L "FileOps.exe") runsFine
      (Wrapper.Arr [L "a"; L "b"]) (Wrapper.Str (L "d")) None
    = WrapperApi.mkSettled (inr (Some 0%Z)) [command].
Proof.
  destruct (copy_move_launch (L "FileOps.exe") runsFine
              (Wrapper.Arr [L "a"; L "b"]) (Wrapper.Str (L "d")) None)
    as [H _].
  cbv zeta in H.
  assert (Hacc : 1 <= length (pathsOf (Wrapper.Arr [L "a"; L "b"])) /\
                 (length (pathsOf (Wrapper.Str (L "d"))) = 1 \/
                  length (pathsOf (Wrapper.Str (L "d")))
                  = length (pathsOf (Wrapper.Arr [L "a"; L "b"]))))
    by (split; [cbn; lia|left; reflexivity]).
  destruct (H Hacc) as [[command E] _].
  exists command. exact E.
Defined.

(** X20, at a blank string. *)
Lemma del_launch_witness :
  pathsOf (Wrapper.Str (L "  ")) = [] /\
  WrapperApi.del (L "FileOps.exe") runsFine (Wrapper.Str (L "  ")) None
  = WrapperApi.mkSettled
      (inl "at least one source path is required"%string) [].
Proof.
  assert (H : pathsOf (Wrapper.Str (L "  ")) = []) by reflexivity.
  split; [exact H|].
  exact (proj1 (del_launch (L "FileOps.exe") runsFine
                  (Wrapper.Str (L "  ")) None) H).
Defined.

(** X21, at a delete of one path. *)
Lemma launched_is_accepted_witness :
  WrapperApi.commands
    (WrapperApi.del (L "FileOps.exe") runsFine (Wrapper.Str (L "a")) None)
  <> [] /\
  (inputIsValid "delete" ["a"%string] [] world0).1 = true.
Proof.
  assert (H : WrapperApi.commands
                (WrapperApi.del (L "FileOps.exe") runsFine
                   (Wrapper.Str (L "a")) None) <> [])
    by (vm_compute; discriminate).
  split; [exact H|].
  destruct (launched_is_accepted (L "FileOps.exe") runsFine
              (Wrapper.Str (L "a")) Wrapper.Nullish None
              (fun _ => "a"%string) world0) as (_ & _ & Hdel).
  exact (Hdel H).
Defined.
